(** * Oracle rewards of the per-arm stationary linear bandit example

    Shallow embedding of
    [tf_agents/bandits/agents/examples/v2/train_eval_per_arm_stationary_linear.py].

    Modelling choices.
    - A tensor is a shape together with its row-major buffer.  The float32
      tensors of the observations hold integers, as this environment draws
      every feature with [np.random.randint].  What the program computes
      from them is floating point: a product or sum is rounded to the
      nearest float32 (float64 in numpy), ties to even, overflows to an
      infinity, and an undefined sum is NaN.  Where no operation rounds (all
      magnitudes below [2^24]), the order in which a kernel adds up a dot
      product plays no role; the theorems that state values are about that
      range, and [rewards_fit_float32] shows that the observations of this
      environment with [HIDDEN_PARAM] lie in it.
    - Python exceptions are values of [exn]; a Python function is a state and
      error monad [Py] over the interpreter state [World] (the dictionaries
      that live on the heap and the state of numpy's global generator).
      An observation is a dictionary and is passed by reference.
    - TensorFlow operators are pure functions from tensors to a tensor or an
      exception.
    - The modules of the framework that the script calls (environment,
      networks, agent, metrics, trainer) are not among the sources at hand.
      An object of the framework is the term of the call that constructs it,
      and whether a call raises, and what it does to the interpreter state,
      is a parameter ([framework]).  numpy's generator is a parameter too
      ([bitgen]).  [main] returns nothing in Python; here it returns the
      arguments of its last call, [trainer.train], so that what it has
      assembled can be stated.
    - The last line of the script, [app.run(main)], is [script]: absl parses
      the flags, reports a flag error and exits with status 1, and lets an
      exception of [main] pass. *)

From stdpp Require Import gmap strings list fin_maps.
From Stdlib Require Import ZArith Lia.

(** ** Tensors *)

Record Tensor (A : Type) : Type := mkTensor {
  shape : list nat;
  values : list A
}.
Arguments mkTensor {A} _ _.
Arguments shape {A} _.
Arguments values {A} _.

(** Number of elements of a shape. *)
Definition numel (sh : list nat) : nat := foldr Nat.mul 1 sh.

Definition wf_tensor {A} (t : Tensor A) : Prop :=
  length (values t) = numel (shape t).

(** Row-major offset of a multi-index, and its inverse. *)
Fixpoint ravel (sh idx : list nat) : nat :=
  match sh, idx with
  | _ :: sh', i :: idx' => i * numel sh' + ravel sh' idx'
  | _, _ => 0
  end.

Fixpoint unravel (sh : list nat) (k : nat) : list nat :=
  match sh with
  | [] => []
  | _ :: sh' => (k / numel sh') :: unravel sh' (k mod numel sh')
  end.

Fixpoint in_boundsb (sh idx : list nat) : bool :=
  match sh, idx with
  | [], [] => true
  | s :: sh', i :: idx' => (i <? s) && in_boundsb sh' idx'
  | _, _ => false
  end.

Definition in_bounds (sh idx : list nat) : Prop := Forall2 lt idx sh.

(** Element at a multi-index; [None] outside the shape. *)
Definition tget {A} (t : Tensor A) (idx : list nat) : option A :=
  if in_boundsb (shape t) idx then values t !! ravel (shape t) idx else None.

(** The tensor of a given shape whose element at [idx] is [f idx]. *)
Definition tinit {A} (sh : list nat) (f : list nat → A) : Tensor A :=
  mkTensor sh ((λ k, f (unravel sh k)) <$> seq 0 (numel sh)).

(** Element of an integer tensor, 0 outside the shape. *)
Definition at_ (t : Tensor Z) (idx : list nat) : Z := default 0%Z (tget t idx).


(** ** Exceptions and results *)

Inductive exn : Type :=
  | KeyError (key : string)
  | InvalidArgumentError (op : string)
  | ValueError (op : string)
  | UnboundLocalError (name : string)
  | IllegalFlagValueError (flag : string)
  (** [sys.exit(code)] *)
  | SystemExit (code : nat)
  (** any exception of the framework, by an opaque identifier *)
  | FrameworkError (code : nat)
  (** no execution reaches this one: a reference a Python program holds is
      always allocated; the model needs an outcome for the other case *)
  | DanglingReference.

Inductive Result (A : Type) : Type :=
  | Ok (a : A)
  | Err (e : exn).
Arguments Ok {A} _.
Arguments Err {A} _.

(** ** Floating point on integers *)

(** A floating point value that arithmetic on integers can produce:
    [Lowest] is minus infinity, which is also what [tf.reduce_max] fills an
    empty reduction with, [Highest] is plus infinity. *)
Inductive ExtZ : Type :=
  | Lowest
  | Num (z : Z)
  | Highest
  | NaN.

(** The number of significant bits and the exponent of the first power of
    two that overflows, for float32 and for float64. *)
Definition float32_prec : Z := 24.
Definition float32_emax : Z := 128.
Definition float64_prec : Z := 53.
Definition float64_emax : Z := 1024.

(** The most negative finite float32. *)
Definition float32_lowest : Z := (- (2 ^ 128 - 2 ^ 104))%Z.

(** An integer rounded to [prec] significant bits, to the nearest, ties to
    the even significand. *)
Definition round_nearest_even (prec : Z) (z : Z) : Z :=
  let a := Z.abs z in
  let e := (Z.log2 a + 1 - prec)%Z in
  if (e <=? 0)%Z then z
  else
    let q := (a / 2 ^ e)%Z in
    let r := (a mod 2 ^ e)%Z in
    let half := (2 ^ (e - 1))%Z in
    let q' := if (half <? r)%Z || ((r =? half)%Z && Z.odd q) then (q + 1)%Z else q in
    (Z.sgn z * (q' * 2 ^ e))%Z.

(** The floating point value of an exact integer result. *)
Definition to_float (prec emax : Z) (z : Z) : ExtZ :=
  let r := round_nearest_even prec z in
  if (2 ^ emax <=? Z.abs r)%Z then (if (z <? 0)%Z then Lowest else Highest)
  else Num r.

Definition float_sgn (a : ExtZ) : Z :=
  match a with
  | Lowest => (-1)%Z
  | Num z => Z.sgn z
  | Highest => 1%Z
  | NaN => 0%Z
  end.

Definition float_mul (prec emax : Z) (a b : ExtZ) : ExtZ :=
  match a, b with
  | NaN, _ | _, NaN => NaN
  | Num x, Num y => to_float prec emax (x * y)
  | _, _ =>
      let s := (float_sgn a * float_sgn b)%Z in
      if (s =? 0)%Z then NaN else if (s <? 0)%Z then Lowest else Highest
  end.

Definition float_add (prec emax : Z) (a b : ExtZ) : ExtZ :=
  match a, b with
  | NaN, _ | _, NaN => NaN
  | Num x, Num y => to_float prec emax (x + y)
  | Lowest, Highest | Highest, Lowest => NaN
  | Lowest, _ | _, Lowest => Lowest
  | Highest, _ | _, Highest => Highest
  end.

(** The dot product as a kernel computes it that multiplies and adds term
    after term, rounding each product and each sum.  A kernel may add in
    another order; the result is the same wherever no sum is rounded. *)
Definition dot_float (prec emax : Z) (x y : list Z) : ExtZ :=
  foldl (λ acc p, float_add prec emax acc (float_mul prec emax (Num p.1) (Num p.2)))
    (Num 0) (zip x y).

(** [a < b] on floating point values: false when one of them is NaN. *)
Definition ext_ltb (a b : ExtZ) : bool :=
  match a, b with
  | NaN, _ | _, NaN => false
  | _, Lowest => false
  | Lowest, _ => true
  | Highest, _ => false
  | _, Highest => true
  | Num x, Num y => (x <? y)%Z
  end.

(** The larger of two values; NaN if one of them is NaN. *)
Definition ext_max (a b : ExtZ) : ExtZ :=
  match a, b with
  | NaN, _ | _, NaN => NaN
  | Lowest, _ => b
  | _, Lowest => a
  | Highest, _ | _, Highest => Highest
  | Num x, Num y => Num (Z.max x y)
  end.

Definition ext_le (a b : ExtZ) : Prop :=
  match a, b with
  | NaN, _ | _, NaN => False
  | Lowest, _ => True
  | _, Lowest => False
  | _, Highest => True
  | Highest, _ => False
  | Num x, Num y => (x ≤ y)%Z
  end.

(** The maximum of a list of values, as [tf.reduce_max] takes it. *)
Definition reduce_max_float (l : list ExtZ) : ExtZ := foldr ext_max Lowest l.

(** Index of the largest value as [tf.argmax] finds it: the scan starts
    from index 0 with the lowest float32 and replaces the running best only
    by a strictly larger value, so that the first of several equal maxima
    wins. *)
Fixpoint argmax_float_scan (best : nat * ExtZ) (i : nat) (l : list ExtZ)
    : nat * ExtZ :=
  match l with
  | [] => best
  | x :: l' => argmax_float_scan (if ext_ltb best.2 x then (i, x) else best) (S i) l'
  end.

Definition argmax_float (l : list ExtZ) : nat :=
  (argmax_float_scan (0, Num float32_lowest) 0 l).1.

(** Conversion to a signed 32-bit integer ([output_type=tf.int32]). *)
Definition int32 (z : Z) : Z := ((z + 2 ^ 31) mod 2 ^ 32 - 2 ^ 31)%Z.

(** ** The exact counterparts, on integers *)

(** The dot product of two integer vectors. *)
Definition dot (x y : list Z) : Z := foldr Z.add 0%Z (zip_with Z.mul x y).

(** The maximum of a list of integers. *)
Definition max_list (l : list Z) : ExtZ :=
  foldr (λ x acc, ext_max (Num x) acc) Lowest l.

(** Index of the largest integer, the first one among equal maxima. *)
Fixpoint argmax_scan (best : nat * Z) (i : nat) (l : list Z) : nat * Z :=
  match l with
  | [] => best
  | x :: l' => argmax_scan (if (best.2 <? x)%Z then (i, x) else best) (S i) l'
  end.

Definition argmax_list (l : list Z) : nat :=
  match l with
  | [] => 0
  | x :: l' => (argmax_scan (0, x) 1 l').1
  end.

(** ** TensorFlow and numpy operators *)

(** A Python integer that a tensor can hold. *)
Definition in_int64 (z : Z) : Prop := (- 2 ^ 63 ≤ z < 2 ^ 63)%Z.

#[global] Instance in_int64_dec z : Decision (in_int64 z).
Proof. unfold in_int64. apply _. Defined.

(** [tf.cast(l, tf.float32)] of a Python list of integers: the list becomes
    an integer tensor, which fails for an integer outside int64, and each
    element is rounded to float32. *)
Definition tf_cast_float32 (l : list Z) : Result (Tensor Z) :=
  if decide (Forall in_int64 l)
  then Ok (mkTensor [length l] (round_nearest_even float32_prec <$> l))
  else Err (ValueError "convert_to_tensor").

(** [tf.shape(t)[i]] *)
Definition tf_shape_getitem {A} (t : Tensor A) (i : nat) : Result nat :=
  match shape t !! i with
  | Some n => Ok n
  | None => Err (InvalidArgumentError "StridedSlice")
  end.

(** [tf.expand_dims(t, axis)], for [axis >= 0]: the buffer is kept. *)
Definition tf_expand_dims {A} (t : Tensor A) (axis : nat) : Result (Tensor A) :=
  if decide (axis ≤ length (shape t))
  then Ok (mkTensor (take axis (shape t) ++ 1 :: drop axis (shape t)) (values t))
  else Err (InvalidArgumentError "ExpandDims").

(** [tf.tile(t, multiples)] *)
Definition tf_tile (t : Tensor Z) (multiples : list nat) : Result (Tensor Z) :=
  if decide (length multiples = length (shape t))
  then Ok (tinit (zip_with Nat.mul (shape t) multiples)
                 (λ idx, at_ t (zip_with Nat.modulo idx (shape t))))
  else Err (InvalidArgumentError "Tile").

(** [tf.concat([a, b], axis=-1)] *)
Definition tf_concat (a b : Tensor Z) : Result (Tensor Z) :=
  match reverse (shape a), reverse (shape b) with
  | da :: ra, db :: rb =>
      if decide (ra = rb)
      then Ok (tinit (reverse ra ++ [da + db])
                 (λ idx, let j := List.last idx 0 in
                         if j <? da then at_ a idx
                         else at_ b (removelast idx ++ [j - da])))
      else Err (InvalidArgumentError "ConcatV2")
  | _, _ => Err (InvalidArgumentError "ConcatV2")
  end.

(** The vector of [t] at the position [idx] of the leading dimensions. *)
Definition vec (t : Tensor Z) (idx : list nat) (n : nat) : list Z :=
  (λ j, at_ t (idx ++ [j])) <$> seq 0 n.

(** [tf.linalg.matvec(a, b)] for a vector [b], as the script calls it: the
    matrices in the last two dimensions of [a], each applied to [b], in
    float32. *)
Definition tf_matvec (a b : Tensor Z) : Result (Tensor ExtZ) :=
  match reverse (shape a), shape b with
  | d :: r :: rpre, [n] =>
      if decide (d = n)
      then Ok (tinit (reverse (r :: rpre))
                 (λ idx, dot_float float32_prec float32_emax (vec a idx d) (values b)))
      else Err (InvalidArgumentError "MatMul")
  | _, _ => Err (InvalidArgumentError "MatMul")
  end.

(** Element of a tensor of computed values. *)
Definition at_float (t : Tensor ExtZ) (idx : list nat) : ExtZ :=
  default NaN (tget t idx).

(** The elements of [t] along [axis] at the position [idx] of the other
    dimensions. *)
Definition fiber (t : Tensor ExtZ) (axis n : nat) (idx : list nat) : list ExtZ :=
  (λ i, at_float t (take axis idx ++ i :: drop axis idx)) <$> seq 0 n.

(** [tf.reduce_max(t, axis=axis)] *)
Definition tf_reduce_max (t : Tensor ExtZ) (axis : nat) : Result (Tensor ExtZ) :=
  match shape t !! axis with
  | Some n =>
      Ok (tinit (delete axis (shape t)) (λ idx, reduce_max_float (fiber t axis n idx)))
  | None => Err (InvalidArgumentError "Max")
  end.

(** [tf.argmax(t, axis=axis, output_type=tf.int32)]; an empty reduction
    axis is an error. *)
Definition tf_argmax (t : Tensor ExtZ) (axis : nat) : Result (Tensor Z) :=
  match shape t !! axis with
  | Some n =>
      if decide (n = 0) then Err (InvalidArgumentError "ArgMax")
      else Ok (tinit (delete axis (shape t))
                 (λ idx, int32 (Z.of_nat (argmax_float (fiber t axis n idx)))))
  | None => Err (InvalidArgumentError "ArgMax")
  end.

(** [np.dot(x, theta)] of a one-dimensional float32 array and a list of
    integers (taken here within int64): a float64. *)
Definition np_dot (x theta : list Z) : Result ExtZ :=
  if decide (length x = length theta)
  then Ok (dot_float float64_prec float64_emax x
             (round_nearest_even float64_prec <$> theta))
  else Err (ValueError "dot").

(** ** The interpreter state and the monad of Python functions *)

(** A dictionary of tensors, as the observations are.  The tensors of an
    observation are float32 tensors; the model has those whose elements are
    integers, and an element stands for the float32 of that value. *)
Abbreviation Dict := (gmap string (Tensor Z)).

(** A reference to a dictionary on the heap. *)
Abbreviation loc := nat (only parsing).

Record World : Type := mkWorld {
  (** the dictionaries, by reference *)
  heap : gmap loc Dict;
  (** the state of numpy's global generator, by an opaque code *)
  rng : nat
}.

Definition Py (A : Type) : Type := World → Result A * World.

#[global] Instance Py_ret : MRet Py := λ A a w, (Ok a, w).

#[global] Instance Py_bind : MBind Py := λ A B f m w,
  match m w with
  | (Ok a, w') => f a w'
  | (Err e, w') => (Err e, w')
  end.

Definition raise {A} (e : exn) : Py A := λ w, (Err e, w).

(** A pure operator, run inside a Python function. *)
Definition lift {A} (r : Result A) : Py A := λ w, (r, w).

(** [obj[key]] *)
Definition getitem (obj : loc) (key : string) : Py (Tensor Z) := λ w,
  match heap w !! obj with
  | Some d =>
      match d !! key with
      | Some v => (Ok v, w)
      | None => (Err (KeyError key), w)
      end
  | None => (Err DanglingReference, w)
  end.

(** [del obj[key]] *)
Definition delitem (obj : loc) (key : string) : Py unit := λ w,
  match heap w !! obj with
  | Some d =>
      match d !! key with
      | Some _ => (Ok (), mkWorld (<[obj := delete key d]> (heap w)) (rng w))
      | None => (Err (KeyError key), w)
      end
  | None => (Err DanglingReference, w)
  end.

(** A trajectory, the named tuple of the framework; its observation is a
    dictionary, held by reference. *)
Record Trajectory : Type := mkTrajectory {
  step_type : Tensor Z;
  observation : loc;
  action : Tensor Z;
  policy_info : Tensor Z;
  next_step_type : Tensor Z;
  reward : Tensor Z;
  discount : Tensor Z
}.

(** [copy.deepcopy(traj)]: the tuple and its dictionary are copied, the copy
    of the dictionary lives at a fresh reference. *)
Definition copy_deepcopy (traj : Trajectory) : Py Trajectory := λ w,
  match heap w !! observation traj with
  | Some d =>
      let l := fresh (dom (heap w)) in
      (Ok (mkTrajectory (step_type traj) l (action traj) (policy_info traj)
             (next_step_type traj) (reward traj) (discount traj)),
       mkWorld (<[l := d]> (heap w)) (rng w))
  | None => (Err DanglingReference, w)
  end.

(** numpy's global generator, a Mersenne Twister with a cache of one normal
    variate, is not spelled out: what [randint] returns in a state, and the
    state that [randint] and [normal] leave, are what a [Generator] says. *)
Record Generator : Type := mkGenerator {
  randint_values : Z → Z → nat → nat → list Z;
  randint_state : Z → Z → nat → nat → nat;
  normal_state : nat → nat
}.

(** A draw of [np.random.normal(loc, scale)]: the variate
    [loc + scale * z] with [z] the standard normal variate that the
    generator makes in the state [normal_draw]. *)
Record NormalSample : Type := mkNormalSample {
  normal_loc : ExtZ;
  normal_scale : Z;
  normal_draw : nat
}.

(** The mean of the distribution a sample was drawn from. *)
Definition normal_mean (s : NormalSample) : ExtZ := normal_loc s.

Definition np_random_normal (gen : Generator) (mu : ExtZ) (sigma : Z)
    : Py NormalSample := λ w,
  (Ok (mkNormalSample mu sigma (rng w)),
   mkWorld (heap w) (normal_state gen (rng w))).

(** A literal such as [0.05]: [mantissa * 10 ^ exp10]. *)
Record pyfloat : Type := mkFloat { mantissa : Z; exp10 : Z }.

(** The member of [policy_utilities.InfoFields] that the script uses. *)
Inductive InfoFields : Type := PREDICTED_REWARDS_MEAN.

(** The library calls of the script, the places where the framework may
    raise. *)
Inductive LibCall : Type :=
  | call_enable_v2_behavior
  | call_StationaryStochasticPerArmPyEnvironment
  | call_TFPyEnvironment
  | call_observation_spec
  | call_create_feed_forward_common_tower_network
  | call_create_feed_forward_dot_product_network
  | call_time_step_spec
  | call_action_spec
  | call_AdamOptimizer
  | call_NeuralEpsilonGreedyAgent
  | call_RegretMetric
  | call_SuboptimalArmsMetric
  | call_trainer_train.

(** The objects of the framework, each as the term of the call that
    constructs it, with the arguments of that call. *)
Inductive PyEnvironment : Type :=
  StationaryStochasticPerArmPyEnvironment
    (global_context_sampling_fn arm_context_sampling_fn : Py (list Z))
    (num_actions : nat)
    (reward_fn : list Z → Py NormalSample)
    (batch_size : nat).

Inductive TFEnvironment : Type :=
  TFPyEnvironment (env : PyEnvironment).

Inductive Spec : Type :=
  | observation_spec (environment : TFEnvironment)
  | time_step_spec (environment : TFEnvironment)
  | action_spec (environment : TFEnvironment).

Inductive Network : Type :=
  | create_feed_forward_common_tower_network
      (obs_spec : Spec) (global_layers arm_layers common_layers : list nat)
  | create_feed_forward_dot_product_network
      (obs_spec : Spec) (global_layers arm_layers : list nat).

Inductive Optimizer : Type :=
  AdamOptimizer (learning_rate : pyfloat).

Record Agent : Type := NeuralEpsilonGreedyAgent {
  agent_time_step_spec : Spec;
  agent_action_spec : Spec;
  reward_network : Network;
  optimizer : Optimizer;
  epsilon : pyfloat;
  accepts_per_arm_features : bool;
  agent_training_data_spec_transformation_fn : option (Trajectory → Py Trajectory);
  emit_policy_info : InfoFields
}.

Inductive Metric : Type :=
  | RegretMetric (baseline_reward_fn : loc → Py (Tensor ExtZ))
  | SuboptimalArmsMetric (baseline_action_fn : loc → Py (Tensor Z)).

(** The keyword arguments of [trainer.train]. *)
Record TrainCall : Type := mkTrainCall {
  root_dir : option string;
  agent : Agent;
  environment : TFEnvironment;
  training_loops : nat;
  steps_per_loop : nat;
  additional_metrics : list Metric;
  training_data_spec_transformation_fn : option (Trajectory → Py Trajectory)
}.

(** The parsed flags. *)
Record Flags : Type := mkFlags {
  FLAGS_root_dir : option string;
  FLAGS_network : string;
  FLAGS_drop_arm_obs : bool
}.

(** What the command line gives for each flag, if anything. *)
Record CommandLine : Type := mkCommandLine {
  arg_root_dir : option string;
  arg_network : option string;
  arg_drop_arm_obs : option bool
}.

(** [flags.DEFINE_enum]: the default when the flag is absent, an error for a
    value that is not listed. *)
Definition parse_enum (name default : string) (enum_values : list string)
    (arg : option string) : Result string :=
  match arg with
  | None => Ok default
  | Some v => if decide (v ∈ enum_values) then Ok v else Err (IllegalFlagValueError name)
  end.

(** ** The script *)

Definition BATCH_SIZE : nat := 16.
Definition NUM_ACTIONS : nat := 7.
Definition HIDDEN_PARAM : list Z := [0; 1; 2; 3; 4; 5; 6; 7; 8]%Z.
Definition TRAINING_LOOPS : nat := 2000.
Definition STEPS_PER_LOOP : nat := 2.

Definition EPSILON : pyfloat := mkFloat 1 (-2).
Definition LR : pyfloat := mkFloat 5 (-2).

Definition network_default : string := "commontower".
Definition network_enum_values : list string := ["commontower"; "dotproduct"].

Section Script.

(** The two keys of [bandit_spec_utils], a module that is not part of the
    sources at hand. *)
Variable GLOBAL_FEATURE_KEY PER_ARM_FEATURE_KEY : string.

(** numpy's global generator. *)
Variable bitgen : Generator.

(** The framework: whether a library call raises in a given state, and the
    state it leaves. *)
Variable framework : LibCall → World → option exn * World.

(** The environment variables of the process. *)
Variable environ : gmap string string.

(** A library call that returns [v] unless the framework raises. *)
Definition lib {A} (c : LibCall) (v : A) : Py A := λ w,
  match framework c w with
  | (Some e, w') => (Err e, w')
  | (None, w') => (Ok v, w')
  end.

(** [np.random.randint(low, high, [n])] *)
Definition np_random_randint (low high : Z) (n : nat) : Py (list Z) := λ w,
  if decide (low < high)%Z
  then (Ok (randint_values bitgen low high n (rng w)),
        mkWorld (heap w) (randint_state bitgen low high n (rng w)))
  else (Err (ValueError "randint"), w).

(** The flag definitions at the head of the script. *)
Definition parse_flags (cl : CommandLine) : Result Flags :=
  match parse_enum "network" network_default network_enum_values (arg_network cl) with
  | Ok net =>
      Ok (mkFlags
            (match arg_root_dir cl with
             | Some d => Some d
             | None => environ !! "TEST_UNDECLARED_OUTPUTS_DIR"
             end)
            net
            (default false (arg_drop_arm_obs cl)))
  | Err e => Err e
  end.

Definition _all_rewards (observation : loc) (hidden_param : list Z)
    : Py (Tensor ExtZ) :=
  hidden_param ← lift (tf_cast_float32 hidden_param);
  global_obs ← getitem observation GLOBAL_FEATURE_KEY;
  per_arm_obs ← getitem observation PER_ARM_FEATURE_KEY;
  num_actions ← lift (tf_shape_getitem per_arm_obs 1);
  expanded ← lift (tf_expand_dims global_obs 1);
  tiled_global ← lift (tf_tile expanded [1; num_actions; 1]);
  concatenated ← lift (tf_concat tiled_global per_arm_obs);
  rewards ← lift (tf_matvec concatenated hidden_param);
  mret rewards.

Definition optimal_reward (observation : loc) (hidden_param : list Z)
    : Py (Tensor ExtZ) :=
  rewards ← _all_rewards observation hidden_param;
  lift (tf_reduce_max rewards 1).

Definition optimal_action (observation : loc) (hidden_param : list Z)
    : Py (Tensor Z) :=
  rewards ← _all_rewards observation hidden_param;
  lift (tf_argmax rewards 1).

(** The class [LinearNormalReward] of [main]. *)
Record LinearNormalReward : Type := LinearNormalReward_init {
  theta : list Z
}.

Definition LinearNormalReward_call (self : LinearNormalReward) (x : list Z)
    : Py NormalSample :=
  mu ← lift (np_dot x (theta self));
  np_random_normal bitgen mu 1.

Definition _global_context_sampling_fn : Py (list Z) :=
  np_random_randint (-10) 10 4.

Definition _arm_context_sampling_fn : Py (list Z) :=
  np_random_randint (-2) 3 5.

Definition drop_arm_feature_fn (traj : Trajectory) : Py Trajectory :=
  transformed_traj ← copy_deepcopy traj;
  _ ← delitem (observation transformed_traj) PER_ARM_FEATURE_KEY;
  mret transformed_traj.

(** [main], given the parsed flags; the result is the keyword arguments of
    the call of [trainer.train]. *)
Definition main (FLAGS : Flags) : Py TrainCall :=
  _ ← lib call_enable_v2_behavior ();
  let reward_fn := LinearNormalReward_init HIDDEN_PARAM in
  env ← lib call_StationaryStochasticPerArmPyEnvironment
          (StationaryStochasticPerArmPyEnvironment
             _global_context_sampling_fn
             _arm_context_sampling_fn
             NUM_ACTIONS
             (LinearNormalReward_call reward_fn)
             BATCH_SIZE);
  environment ← lib call_TFPyEnvironment (TFPyEnvironment env);
  obs_spec ← lib call_observation_spec (observation_spec environment);
  network ←
    (if decide (FLAGS_network FLAGS = "commontower") then
       network ← lib call_create_feed_forward_common_tower_network
         (create_feed_forward_common_tower_network obs_spec [4; 3] [3; 4] [4; 2]);
       mret (Some network)
     else if decide (FLAGS_network FLAGS = "dotproduct") then
       network ← lib call_create_feed_forward_dot_product_network
         (create_feed_forward_dot_product_network obs_spec [4; 3; 6] [3; 4; 6]);
       mret (Some network)
     else mret None);
  let drop_arm_feature_fn :=
    if FLAGS_drop_arm_obs FLAGS then Some drop_arm_feature_fn else None in
  time_step_spec ← lib call_time_step_spec (time_step_spec environment);
  action_spec ← lib call_action_spec (action_spec environment);
  network ← from_option mret (raise (UnboundLocalError "network")) network;
  optimizer ← lib call_AdamOptimizer (AdamOptimizer LR);
  agent ← lib call_NeuralEpsilonGreedyAgent
    (NeuralEpsilonGreedyAgent time_step_spec action_spec network optimizer
       EPSILON true drop_arm_feature_fn PREDICTED_REWARDS_MEAN);
  let optimal_reward_fn := λ observation, optimal_reward observation HIDDEN_PARAM in
  let optimal_action_fn := λ observation, optimal_action observation HIDDEN_PARAM in
  regret_metric ← lib call_RegretMetric (RegretMetric optimal_reward_fn);
  suboptimal_arms_metric ←
    lib call_SuboptimalArmsMetric (SuboptimalArmsMetric optimal_action_fn);
  _ ← lib call_trainer_train ();
  mret (mkTrainCall (FLAGS_root_dir FLAGS) agent environment TRAINING_LOOPS
          STEPS_PER_LOOP [regret_metric; suboptimal_arms_metric]
          drop_arm_feature_fn).

(** [app.run(main)], the last line of the script, with [app.run] of absl:
    the flags are parsed; a flag error is reported and the process exits
    with status 1; an exception of [main] passes through.  The exit after
    [main] has returned is the result [Ok]. *)
Definition app_run (main : Flags → Py TrainCall) (cl : CommandLine)
    : Py TrainCall := λ w,
  match parse_flags cl with
  | Ok FLAGS => main FLAGS w
  | Err _ => (Err (SystemExit 1), w)
  end.

Definition script (cl : CommandLine) : Py TrainCall := app_run main cl.

(** An observation of [B] batch elements and [K] arms, with [Dg] global and
    [Da] per-arm features. *)
Record valid_observation (d : Dict) (g A : Tensor Z) (B K Dg Da : nat)
    : Prop := mkValid {
  valid_global : d !! GLOBAL_FEATURE_KEY = Some g;
  valid_per_arm : d !! PER_ARM_FEATURE_KEY = Some A;
  valid_global_wf : wf_tensor g;
  valid_per_arm_wf : wf_tensor A;
  valid_global_shape : shape g = [B; Dg];
  valid_per_arm_shape : shape A = [B; K; Da]
}.

(** [j] is the position of the maximum [m] of [l], the lowest one when the
    maximum occurs several times. *)
Definition is_first_max (l : list Z) (j : nat) (m : Z) : Prop :=
  l !! j = Some m ∧
  (∀ k x, l !! k = Some x → (x ≤ m)%Z) ∧
  (∀ k x, k < j → l !! k = Some x → (x < m)%Z).

(** The number that a value is, 0 for the infinities and NaN. *)
Definition num_of (v : ExtZ) : Z :=
  match v with
  | Num z => z
  | _ => 0%Z
  end.

(** The rewards of the arms of batch element [b], when they are numbers. *)
Definition arm_rewards (rewards : Tensor ExtZ) (b K : nat) : list Z :=
  (λ i, num_of (at_float rewards [b; i])) <$> seq 0 K.

(** A magnitude below which float32 and float64 hold every integer. *)
Definition small (z : Z) : Prop := (Z.abs z < 2 ^ 24)%Z.

(** The inputs of a reward computation in which nothing is rounded: the
    features and the hidden parameter are small, and for every arm the
    magnitudes of the products of its features with the hidden parameter
    add up to less than [2^24]. *)
Definition exact_rewards (g A : Tensor Z) (h : list Z) (B K Dg Da : nat)
    : Prop :=
  Forall small (values g) ∧ Forall small (values A) ∧ Forall small h ∧
  ∀ b i, b < B → i < K →
    (dot (Z.abs <$> (vec g [b] Dg ++ vec A [b; i] Da)) (Z.abs <$> h) < 2 ^ 24)%Z.

(** A reward that is a finite number above the lowest float32, and a tensor
    of such rewards. *)
Definition ordinary (v : ExtZ) : Prop :=
  ∃ z, v = Num z ∧ (float32_lowest < z)%Z.

Definition ordinary_rewards (rewards : Tensor ExtZ) : Prop :=
  Forall ordinary (values rewards).

(** A tensor of rewards none of which is NaN. *)
Definition no_nan (rewards : Tensor ExtZ) : Prop :=
  Forall (λ v, v ≠ NaN) (values rewards).

(** The observation of the tie scenario: one batch element, two arms. *)
Definition tie_global : Tensor Z := mkTensor [1; 2] [1; 0]%Z.
Definition tie_per_arm : Tensor Z := mkTensor [1; 2; 2] [1; 0; 0; 1]%Z.
Definition tie_hidden_param : list Z := [1; 1; 1; 1]%Z.

(** The library calls of [main], for a listed value of the network flag, in
    the order in which it makes them, and the outcome of making calls one
    after the other until one raises. *)
Definition main_library_calls (FLAGS : Flags) : list LibCall :=
  [call_enable_v2_behavior; call_StationaryStochasticPerArmPyEnvironment;
   call_TFPyEnvironment; call_observation_spec] ++
  (if decide (FLAGS_network FLAGS = "commontower")
   then [call_create_feed_forward_common_tower_network]
   else [call_create_feed_forward_dot_product_network]) ++
  [call_time_step_spec; call_action_spec; call_AdamOptimizer;
   call_NeuralEpsilonGreedyAgent; call_RegretMetric;
   call_SuboptimalArmsMetric; call_trainer_train].

Fixpoint first_raise (calls : list LibCall) (w : World) : option exn * World :=
  match calls with
  | [] => (None, w)
  | c :: calls' =>
      match framework c w with
      | (Some e, w') => (Some e, w')
      | (None, w') => first_raise calls' w'
      end
  end.

(** The environment and the metrics that [main] assembles. *)
Definition main_environment : TFEnvironment :=
  TFPyEnvironment
    (StationaryStochasticPerArmPyEnvironment
       _global_context_sampling_fn _arm_context_sampling_fn NUM_ACTIONS
       (LinearNormalReward_call (LinearNormalReward_init HIDDEN_PARAM))
       BATCH_SIZE).

Definition main_metrics : list Metric :=
  [RegretMetric (λ observation, optimal_reward observation HIDDEN_PARAM);
   SuboptimalArmsMetric (λ observation, optimal_action observation HIDDEN_PARAM)].

(** The exception of the first operator of the reward computation that
    raises, on global features [g], per-arm features [A] and hidden
    parameter [h]. *)
Definition first_operator_error (g A : Tensor Z) (h : list Z) : option exn :=
  match tf_cast_float32 h with
  | Err e => Some e
  | Ok hidden_param =>
      match tf_shape_getitem A 1 with
      | Err e => Some e
      | Ok num_actions =>
          match tf_expand_dims g 1 with
          | Err e => Some e
          | Ok expanded =>
              match tf_tile expanded [1; num_actions; 1] with
              | Err e => Some e
              | Ok tiled_global =>
                  match tf_concat tiled_global A with
                  | Err e => Some e
                  | Ok concatenated =>
                      match tf_matvec concatenated hidden_param with
                      | Err e => Some e
                      | Ok _ => None
                      end
                  end
              end
          end
      end
  end.

(** ** Sample data *)

(** Two batch elements, three arms, two global features and one feature
    for each arm. *)
Definition sample_global : Tensor Z := mkTensor [2; 2] [1; 0; 3; 4]%Z.
Definition sample_per_arm : Tensor Z := mkTensor [2; 3; 1] [1; 2; 3; 7; 8; 9]%Z.
Definition sample_hidden_param : list Z := [1; 1; 1]%Z.

Definition sample_observation : Dict :=
  <["global" := sample_global]> (<["per_arm" := sample_per_arm]> ∅).

Definition tie_observation : Dict :=
  <["global" := tie_global]> (<["per_arm" := tie_per_arm]> ∅).

(** An observation as the environment of [main] makes them (four global
    features, five for each arm), here with one batch element and two arms,
    and one that offers no arm. *)
Definition env_global : Tensor Z := mkTensor [1; 4] [3; -10; 9; 0]%Z.
Definition env_per_arm : Tensor Z :=
  mkTensor [1; 2; 5] [-2; 2; 0; 1; -1; 2; 2; 2; 2; 2]%Z.

Definition env_observation : Dict :=
  <["global" := env_global]> (<["per_arm" := env_per_arm]> ∅).

Definition armless_observation : Dict :=
  <["global" := sample_global]> (<["per_arm" := mkTensor [2; 0; 1] []]> ∅).

(** A state with the sample observation at reference 0, the tie observation
    at reference 1, the observation of the environment at reference 2 and the
    observation without arms at reference 3. *)
Definition sample_world : World :=
  mkWorld (<[0 := sample_observation]> (<[1 := tie_observation]>
            (<[2 := env_observation]> (<[3 := armless_observation]> ∅)))) 0.

Definition sample_trajectory : Trajectory :=
  mkTrajectory (mkTensor [2] [1; 1]%Z) 0 (mkTensor [2] [2; 0]%Z)
    (mkTensor [2] [4; 17]%Z) (mkTensor [2] [1; 1]%Z)
    (mkTensor [2] [5; 16]%Z) (mkTensor [2] [1; 1]%Z).

(** A framework in which no call raises, and one in which the agent
    cannot be built. *)
Definition quiet_framework : LibCall → World → option exn * World :=
  λ _ w, (None, w).

Definition failing_framework : LibCall → World → option exn * World :=
  λ c w,
    match c with
    | call_NeuralEpsilonGreedyAgent => (Some (FrameworkError 7), w)
    | _ => (None, w)
    end.

Definition sample_bitgen : Generator :=
  mkGenerator (λ low high n state, replicate n low)
    (λ low high n state, state + n + 1) (λ state, state + 4).

Definition default_flags : Flags := mkFlags None "commontower" false.
Definition dropping_flags : Flags := mkFlags (Some "/tmp/out") "dotproduct" true.

(** Another state: the sample observation is at reference 0 as in
    [sample_world], the rest differs. *)
Definition other_world : World :=
  mkWorld (<[0 := sample_observation]> (<[5 := ∅]> ∅)) 12.

(** Every element of the buffer of a tensor satisfies [P]. *)
Definition all_values (P : Z → Prop) (t : Tensor Z) : Prop :=
  Forall P (values t).

(** An observation as the environment of [main] produces them: four global
    features drawn by [_global_context_sampling_fn] and five features for
    each arm drawn by [_arm_context_sampling_fn]. *)
Definition sampled_observation (g A : Tensor Z) : Prop :=
  all_values (λ z, (-10 ≤ z < 10)%Z) g ∧ all_values (λ z, (-2 ≤ z < 3)%Z) A.

(** Element-wise sum and multiple of a hidden parameter. *)
Definition add_param (h1 h2 : list Z) : list Z := zip_with Z.add h1 h2.
Definition scale_param (c : Z) (h : list Z) : list Z := Z.mul c <$> h.

(** The observation specification that a network was built from. *)
Definition network_obs_spec (network : Network) : Spec :=
  match network with
  | create_feed_forward_common_tower_network obs_spec _ _ _ => obs_spec
  | create_feed_forward_dot_product_network obs_spec _ _ => obs_spec
  end.

(** More sample data: an observation whose two tensors disagree on the
    batch size, the sample observation with one more key, and a state that
    holds them at references 0 and 1. *)
Definition mismatched_observation : Dict :=
  <["global" := sample_global]>
    (<["per_arm" := mkTensor [3; 1; 1] [1; 2; 3]%Z]> ∅).

Definition annotated_observation : Dict :=
  <["num_actions" := mkTensor [2] [3; 3]%Z]> sample_observation.

Definition more_world : World :=
  mkWorld (<[0 := mismatched_observation]> (<[1 := annotated_observation]> ∅)) 3.

(** A trajectory whose observation, at reference 5 of [other_world], has no
    per-arm features. *)
Definition bare_trajectory : Trajectory :=
  mkTrajectory (mkTensor [1] [1]%Z) 5 (mkTensor [1] [0]%Z)
    (mkTensor [1] [0]%Z) (mkTensor [1] [1]%Z) (mkTensor [1] [2]%Z)
    (mkTensor [1] [1]%Z).

(** A framework in which the builder of the dot product network raises,
    and nothing else. *)
Definition no_dot_product_framework : LibCall → World → option exn * World :=
  λ c w,
    match c with
    | call_create_feed_forward_dot_product_network =>
        (Some (FrameworkError 3), mkWorld (heap w) (S (rng w)))
    | _ => (None, w)
    end.

(** The sample observation with other global features, and a state that
    holds it at reference 0. *)
Definition shifted_observation : Dict :=
  <["global" := mkTensor [2; 2] [5; 5; 0; -1]%Z]>
    (<["per_arm" := sample_per_arm]> ∅).

Definition shifted_world : World :=
  mkWorld (<[0 := shifted_observation]> ∅) 1.

(** The inputs at which float32 rounds a reward, and a hidden parameter that
    no tensor can hold. *)
Definition rounding_global : Tensor Z := mkTensor [1; 1] [2 ^ 24]%Z.
Definition rounding_per_arm : Tensor Z := mkTensor [1; 2; 1] [1; 0]%Z.

Definition rounding_observation : Dict :=
  <["global" := rounding_global]> (<["per_arm" := rounding_per_arm]> ∅).

Definition rounding_world : World :=
  mkWorld (<[0 := rounding_observation]> ∅) 0.

Definition huge_hidden_param : list Z := [2 ^ 63; 1]%Z.

(** A command line whose network is not listed. *)
Definition malformed_command_line : CommandLine :=
  mkCommandLine None (Some "transformer") None.


(** ** Facts about indexing *)

Lemma in_boundsb_spec sh idx : in_boundsb sh idx = true ↔ in_bounds sh idx.
Proof.
  unfold in_bounds. revert idx.
  induction sh as [|s sh IH]; intros [|i idx]; simpl.
  - split; [constructor | done].
  - split; [done | inversion 1].
  - split; [done | inversion 1].
  - rewrite andb_true_iff, Nat.ltb_lt, IH. split.
    + intros [??]. by constructor.
    + inversion 1; subst. done.
Qed.

Lemma in_bounds_numel_pos sh idx : in_bounds sh idx → 0 < numel sh.
Proof.
  unfold in_bounds. induction 1 as [|i s idx sh Hlt _ IH]; simpl; [lia | nia].
Qed.

Lemma ravel_lt sh idx : in_bounds sh idx → ravel sh idx < numel sh.
Proof.
  unfold in_bounds. induction 1 as [|i s idx sh Hlt _ IH]; simpl; [lia | nia].
Qed.

Lemma unravel_ravel sh idx : in_bounds sh idx → unravel sh (ravel sh idx) = idx.
Proof.
  unfold in_bounds. induction 1 as [|i s idx sh Hlt Hrest IH]; simpl; [done|].
  pose proof (ravel_lt sh idx Hrest) as Hr.
  assert (numel sh ≠ 0) as Hn by lia.
  f_equal.
  - rewrite Nat.div_add_l by done. rewrite Nat.div_small by done. lia.
  - rewrite Nat.add_comm, Nat.Div0.mod_add. by rewrite Nat.mod_small.
Qed.

Lemma tinit_shape {A} sh (f : list nat → A) : shape (tinit sh f) = sh.
Proof. done. Qed.

Lemma tinit_wf {A} sh (f : list nat → A) : wf_tensor (tinit sh f).
Proof. unfold wf_tensor. simpl. by rewrite length_fmap, length_seq. Qed.

Lemma tget_tinit {A} sh (f : list nat → A) idx :
in_bounds sh idx → tget (tinit sh f) idx = Some (f idx).
Proof.
  intros Hb. unfold tget. simpl.
  rewrite (proj2 (in_boundsb_spec sh idx) Hb).
  rewrite list_lookup_fmap, lookup_seq_lt by by apply ravel_lt.
  simpl. by rewrite unravel_ravel.
Qed.

Lemma tget_out_of_bounds {A} (t : Tensor A) idx :
¬ in_bounds (shape t) idx → tget t idx = None.
Proof.
  intros Hn. unfold tget. destruct (in_boundsb (shape t) idx) eqn:E; [|done].
  by apply in_boundsb_spec in E.
Qed.

Lemma at_tinit sh (f : list nat → Z) idx :
  in_bounds sh idx → at_ (tinit sh f) idx = f idx.
Proof. intros Hb. unfold at_. by rewrite tget_tinit. Qed.

(** ** Facts about the monad *)

Lemma bind_ok {A B} (m : Py A) (f : A → Py B) w a w' :
  m w = (Ok a, w') → (m ≫= f) w = f a w'.
Proof. intros H. unfold mbind, Py_bind. by rewrite H. Qed.

Lemma bind_err {A B} (m : Py A) (f : A → Py B) w e w' :
  m w = (Err e, w') → (m ≫= f) w = (Err e, w').
Proof. intros H. unfold mbind, Py_bind. by rewrite H. Qed.

Lemma bind_inv {A B} (m : Py A) (f : A → Py B) w r w' :
  (m ≫= f) w = (r, w') →
  (∃ e, m w = (Err e, w') ∧ r = Err e) ∨
  (∃ a w1, m w = (Ok a, w1) ∧ f a w1 = (r, w')).
Proof.
  unfold mbind, Py_bind. destruct (m w) as [[a|e] w1]; intros H.
  - right. eauto.
  - left. exists e. by inversion H.
Qed.

Lemma getitem_ok obj key w d v :
  heap w !! obj = Some d → d !! key = Some v → getitem obj key w = (Ok v, w).
Proof. intros H1 H2. unfold getitem. by rewrite H1, H2. Qed.

Lemma getitem_missing obj key w d :
  heap w !! obj = Some d → d !! key = None →
  getitem obj key w = (Err (KeyError key), w).
Proof. intros H1 H2. unfold getitem. by rewrite H1, H2. Qed.

(** ** The operators on the shapes of the reward computation *)

Lemma in_bounds_2 B K b i : b < B → i < K → in_bounds [B; K] [b; i].
Proof. intros. repeat constructor; done. Qed.

Lemma in_bounds_3 B K D b i j :
  b < B → i < K → j < D → in_bounds [B; K; D] [b; i; j].
Proof. intros. repeat constructor; done. Qed.

Lemma tf_expand_dims_rank2 (g : Tensor Z) B D :
  shape g = [B; D] →
  tf_expand_dims g 1 = Ok (mkTensor [B; 1; D] (values g)).
Proof.
  intros Hs. unfold tf_expand_dims. rewrite Hs.
  case_decide; [done | simpl in *; lia].
Qed.

Lemma at_expanded (g : Tensor Z) B D b j :
  shape g = [B; D] →
  at_ (mkTensor [B; 1; D] (values g)) [b; 0; j] = at_ g [b; j].
Proof.
  intros Hs. unfold at_, tget. rewrite Hs. simpl.
  by rewrite Nat.add_0_r.
Qed.

Lemma tf_tile_rank3 (e : Tensor Z) B D K :
  shape e = [B; 1; D] →
  tf_tile e [1; K; 1] =
    Ok (tinit [B; K; D] (λ idx, at_ e (zip_with Nat.modulo idx [B; 1; D]))).
Proof.
  intros Hs. unfold tf_tile. rewrite Hs.
  case_decide; [|done]. simpl.
  by rewrite !Nat.mul_1_r, Nat.add_0_r.
Qed.

Lemma tf_concat_rank3 (a b : Tensor Z) B K Da Db :
  shape a = [B; K; Da] → shape b = [B; K; Db] →
  tf_concat a b =
    Ok (tinit [B; K; Da + Db]
          (λ idx, let j := List.last idx 0 in
                  if j <? Da then at_ a idx
                  else at_ b (removelast idx ++ [j - Da]))).
Proof.
  intros Ha Hb. unfold tf_concat. rewrite Ha, Hb. simpl.
  case_decide; done.
Qed.

Lemma tf_matvec_rank3 (a hp : Tensor Z) B K D :
  shape a = [B; K; D] → shape hp = [D] →
  tf_matvec a hp =
    Ok (tinit [B; K]
          (λ idx, dot_float float32_prec float32_emax (vec a idx D) (values hp))).
Proof.
  intros Ha Hh. unfold tf_matvec. rewrite Ha, Hh. simpl.
  case_decide; done.
Qed.

Lemma tf_matvec_rank3_mismatch (a hp : Tensor Z) B K D n :
  shape a = [B; K; D] → shape hp = [n] → n ≠ D →
  tf_matvec a hp = Err (InvalidArgumentError "MatMul").
Proof.
  intros Ha Hh Hne. unfold tf_matvec. rewrite Ha, Hh. simpl.
  case_decide; [congruence | done].
Qed.

(** The concatenated features of arm [i] of batch element [b]. *)
Lemma vec_concatenated (g A : Tensor Z) B K Dg Da b i :
  shape g = [B; Dg] → shape A = [B; K; Da] → b < B → i < K →
  vec (tinit [B; K; Dg + Da]
         (λ idx, let j := List.last idx 0 in
                 if j <? Dg
                 then at_ (tinit [B; K; Dg]
                             (λ idx, at_ (mkTensor [B; 1; Dg] (values g))
                                       (zip_with Nat.modulo idx [B; 1; Dg]))) idx
                 else at_ A (removelast idx ++ [j - Dg])))
      [b; i] (Dg + Da)
  = vec g [b] Dg ++ vec A [b; i] Da.
Proof.
  intros Hg HA Hb Hi. unfold vec.
  assert (seq (0 + Dg) Da = Nat.add Dg <$> seq 0 Da) as Hseq
    by (rewrite fmap_add_seq; f_equal; lia).
  rewrite seq_app, fmap_app, Hseq, <- list_fmap_compose. f_equal.
  - apply list_fmap_ext. intros k j Hj.
    apply lookup_seq in Hj as [-> Hk]. simpl in *.
    rewrite at_tinit by (apply in_bounds_3; lia). simpl.
    rewrite (proj2 (Nat.ltb_lt k Dg)) by done.
    rewrite at_tinit by (apply in_bounds_3; lia). simpl.
    rewrite (Nat.mod_small b B), (Nat.mod_small k Dg) by done.
    by apply at_expanded.
  - apply list_fmap_ext. intros k j Hj.
    apply lookup_seq in Hj as [-> Hk]. simpl in *.
    rewrite at_tinit by (apply in_bounds_3; lia). simpl.
    rewrite (proj2 (Nat.ltb_ge (Dg + k) Dg)) by lia.
    by replace (Dg + k - Dg) with k by lia.
Qed.


(** ** Where floating point is exact *)

Lemma round_nearest_even_small prec z :
  (0 < prec)%Z → (Z.abs z < 2 ^ prec)%Z → round_nearest_even prec z = z.
Proof.
  intros Hp Hz. unfold round_nearest_even.
  assert (Z.log2 (Z.abs z) + 1 - prec ≤ 0)%Z as He.
  { destruct (decide (Z.abs z = 0%Z)) as [->|Hne]; [simpl; lia|].
    assert (Z.log2 (Z.abs z) < prec)%Z; [|lia].
    apply Z.log2_lt_pow2; lia. }
  by rewrite (proj2 (Z.leb_le _ _) He).
Qed.

Lemma to_float_small prec emax z :
  (0 < prec)%Z → (prec ≤ emax)%Z → (Z.abs z < 2 ^ prec)%Z →
  to_float prec emax z = Num z.
Proof.
  intros Hp He Hz. unfold to_float.
  rewrite round_nearest_even_small by done.
  assert (2 ^ prec ≤ 2 ^ emax)%Z by (apply Z.pow_le_mono_r; lia).
  rewrite (proj2 (Z.leb_gt _ _)); [done | lia].
Qed.

Lemma small_pow prec z : (24 ≤ prec)%Z → small z → (Z.abs z < 2 ^ prec)%Z.
Proof.
  intros Hp Hz. unfold small in Hz.
  assert (2 ^ 24 ≤ 2 ^ prec)%Z by (apply Z.pow_le_mono_r; lia). lia.
Qed.

Lemma dot_cons x0 x y0 y : dot (x0 :: x) (y0 :: y) = (x0 * y0 + dot x y)%Z.
Proof. done. Qed.

Lemma dot_abs_nonneg (x y : list Z) : (0 ≤ dot (Z.abs <$> x) (Z.abs <$> y))%Z.
Proof.
  revert y. induction x as [|a x IH]; intros [|b y]; simpl; try done.
  rewrite dot_cons. apply Z.add_nonneg_nonneg; [|apply IH].
  pose proof (Z.abs_nonneg a). pose proof (Z.abs_nonneg b). nia.
Qed.

Lemma float_mul_add_small prec emax a p q :
  (24 ≤ prec)%Z → (prec ≤ emax)%Z →
  (Z.abs a + Z.abs p * Z.abs q < 2 ^ 24)%Z →
  float_add prec emax (Num a) (float_mul prec emax (Num p) (Num q)) =
    Num (a + p * q).
Proof.
  intros Hp He Hsum.
  pose proof (Z.abs_mul p q) as Habs.
  pose proof (Z.abs_nonneg a). pose proof (Z.abs_nonneg (p * q)).
  unfold float_mul.
  rewrite (to_float_small prec emax (p * q)); [|lia..|].
  2:{ apply small_pow; [done|]. unfold small. lia. }
  unfold float_add.
  rewrite (to_float_small prec emax (a + p * q)); [done|lia..|].
  apply small_pow; [done|]. unfold small. lia.
Qed.

Lemma dot_float_exact_from prec emax (x y : list Z) a :
  (24 ≤ prec)%Z → (prec ≤ emax)%Z →
  (Z.abs a + dot (Z.abs <$> x) (Z.abs <$> y) < 2 ^ 24)%Z →
  foldl (λ acc p, float_add prec emax acc (float_mul prec emax (Num p.1) (Num p.2)))
    (Num a) (zip x y) = Num (a + dot x y).
Proof.
  intros Hp He. revert y a.
  induction x as [|x0 x IH]; intros [|y0 y] a Hsum;
    try (cbn [zip_with foldl]; f_equal; unfold dot; simpl; lia).
  rewrite !fmap_cons, dot_cons in Hsum.
  pose proof (dot_abs_nonneg x y) as Hnn.
  pose proof (Z.abs_mul x0 y0) as Habs. pose proof (Z.abs_nonneg (x0 * y0)).
  cbn [zip_with foldl fst snd].
  rewrite float_mul_add_small by lia.
  rewrite IH.
  - f_equal. rewrite dot_cons. lia.
  - pose proof (Z.abs_triangle a (x0 * y0)). lia.
Qed.

(** A dot product in which the magnitudes of the products add up to less
    than [2^24] is the exact one, in float32 and in float64. *)
Lemma dot_float_exact prec emax (x y : list Z) :
  (24 ≤ prec)%Z → (prec ≤ emax)%Z →
  (dot (Z.abs <$> x) (Z.abs <$> y) < 2 ^ 24)%Z →
  dot_float prec emax x y = Num (dot x y).
Proof.
  intros Hp He Hsum. unfold dot_float.
  rewrite dot_float_exact_from by (simpl; lia). done.
Qed.

Lemma small_in_int64 z : small z → in_int64 z.
Proof. unfold small, in_int64. lia. Qed.

Lemma round_small_list prec (h : list Z) :
  (24 ≤ prec)%Z → Forall small h → round_nearest_even prec <$> h = h.
Proof.
  intros Hp. induction 1 as [|z h Hz _ IH]; [done|].
  rewrite fmap_cons, IH, round_nearest_even_small;
    [done | lia | by apply small_pow].
Qed.

Lemma tf_cast_float32_small (h : list Z) :
  Forall small h → tf_cast_float32 h = Ok (mkTensor [length h] h).
Proof.
  intros Hs. unfold tf_cast_float32.
  rewrite decide_True by (eapply Forall_impl; [done | apply small_in_int64]).
  by rewrite round_small_list.
Qed.

Lemma tf_cast_float32_returns (h : list Z) :
  Forall in_int64 h →
  ∃ hp, tf_cast_float32 h = Ok hp ∧ shape hp = [length h].
Proof.
  intros Hh. unfold tf_cast_float32. rewrite decide_True by done. eauto.
Qed.

Lemma tf_cast_float32_raises (h : list Z) :
  ¬ Forall in_int64 h →
  tf_cast_float32 h = Err (ValueError "convert_to_tensor").
Proof. intros Hh. unfold tf_cast_float32. by rewrite decide_False. Qed.

Lemma tf_cast_float32_inv (h : list Z) hp :
  tf_cast_float32 h = Ok hp → Forall in_int64 h ∧ shape hp = [length h].
Proof. unfold tf_cast_float32. case_decide; [|done]. by intros [= <-]. Qed.

Lemma np_dot_exact (x th : list Z) :
  length x = length th → Forall small th →
  (dot (Z.abs <$> x) (Z.abs <$> th) < 2 ^ 24)%Z →
  np_dot x th = Ok (Num (dot x th)).
Proof.
  intros Hlen Hth Hsum. unfold np_dot. rewrite decide_True by done.
  rewrite round_small_list by (done || unfold float64_prec; lia).
  rewrite dot_float_exact; [done | unfold float64_prec; lia | done | done].
Qed.

(** ** Maximum and position of the maximum of a list *)




Lemma max_list_nil : max_list [] = Lowest.
Proof. done. Qed.

Lemma argmax_scan_spec (l pre : list Z) (best : nat * Z) :
  is_first_max pre best.1 best.2 →
  is_first_max (pre ++ l)
    (argmax_scan best (length pre) l).1 (argmax_scan best (length pre) l).2.
Proof.
  revert pre best. induction l as [|x l IH]; intros pre [j m] Hbest; simpl in *.
  - by rewrite app_nil_r.
  - replace (S (length pre)) with (length (pre ++ [x]))
      by (rewrite length_app; simpl; lia).
    rewrite (cons_middle x pre l), app_assoc.
    apply IH. destruct Hbest as (Hj & Hup & Hlow).
    destruct (Z.ltb_spec m x) as [Hlt|Hge]; simpl.
    + split_and!.
      * by rewrite lookup_app_r, Nat.sub_diag by lia.
      * intros k y Hk. apply lookup_app_Some in Hk as [Hk|[Hk1 Hk2]].
        -- specialize (Hup k y Hk). lia.
        -- destruct (k - length pre) as [|n]; simpl in Hk2; [|done].
           inversion Hk2. lia.
      * intros k y Hk Hy. rewrite lookup_app_l in Hy by done.
        specialize (Hup k y Hy). lia.
    + split_and!.
      * rewrite lookup_app_l; [done|]. by eapply lookup_lt_Some.
      * intros k y Hk. apply lookup_app_Some in Hk as [Hk|[Hk1 Hk2]].
        -- by eapply Hup.
        -- destruct (k - length pre) as [|n]; simpl in Hk2; [|done].
           inversion Hk2. lia.
      * intros k y Hk Hy. apply lookup_lt_Some in Hj.
        rewrite lookup_app_l in Hy by lia. by eapply Hlow.
Qed.

Lemma argmax_list_spec (l : list Z) :
  l ≠ [] → ∃ m, is_first_max l (argmax_list l) m.
Proof.
  destruct l as [|x l]; [done|]. intros _. unfold argmax_list.
  exists (argmax_scan (0, x) 1 l).2.
  apply (argmax_scan_spec l [x] (0, x)). split_and!; simpl.
  - done.
  - intros [|k] y Hk; simpl in Hk; [inversion Hk; lia | done].
  - intros k y Hk. lia.
Qed.

Lemma is_first_max_unique (l : list Z) j m j' m' :
  is_first_max l j m → is_first_max l j' m' → j = j' ∧ m = m'.
Proof.
  intros (Hj & Hup & Hlow) (Hj' & Hup' & Hlow').
  pose proof (Hup _ _ Hj') as H1. pose proof (Hup' _ _ Hj) as H2.
  assert (m = m') as -> by lia. split; [|done].
  destruct (Nat.lt_trichotomy j j') as [Hlt|[->|Hgt]]; [|done|].
  - specialize (Hlow' _ _ Hlt Hj). lia.
  - specialize (Hlow _ _ Hgt Hj'). lia.
Qed.



Lemma argmax_float_scan_Num (zs : list Z) j m i :
  argmax_float_scan (j, Num m) i (Num <$> zs) =
    ((argmax_scan (j, m) i zs).1, Num (argmax_scan (j, m) i zs).2).
Proof.
  revert j m i. induction zs as [|z zs IH]; intros j m i; [done|]. simpl.
  destruct (m <? z)%Z; apply IH.
Qed.

Lemma argmax_float_Num (zs : list Z) :
  Forall (λ z, (float32_lowest < z)%Z) zs →
  argmax_float (Num <$> zs) = argmax_list zs.
Proof.
  destruct zs as [|z zs]; [done|]. intros [Hz _]%Forall_cons.
  unfold argmax_float, argmax_list. simpl.
  rewrite (proj2 (Z.ltb_lt _ _) Hz). by rewrite argmax_float_scan_Num.
Qed.

(** ** The reward computation *)

Lemma lift_bind_ok {A B} (a : A) (f : A → Py B) w :
  (lift (Ok a) ≫= f) w = f a w.
Proof. done. Qed.

Lemma lift_bind_err {A B} e (f : A → Py B) w :
  (lift (Err e) ≫= f) w = (Err e, w).
Proof. done. Qed.

Lemma tf_shape_getitem_rank3 (A : Tensor Z) B K D :
  shape A = [B; K; D] → tf_shape_getitem A 1 = Ok K.
Proof. intros Hs. unfold tf_shape_getitem. by rewrite Hs. Qed.

Lemma unravel_in_bounds sh k : k < numel sh → in_bounds sh (unravel sh k).
Proof.
  revert k. induction sh as [|s sh IH]; intros k Hk; [constructor|].
  simpl in *.
  assert (numel sh ≠ 0) by (intros Heq; rewrite Heq in Hk; lia).
  constructor.
  - apply Nat.Div0.div_lt_upper_bound. lia.
  - apply IH. by apply Nat.mod_upper_bound.
Qed.

(** Every element of the buffer of [tinit sh f] is [f] at a position of the
    shape. *)
Lemma tinit_values {A} sh (f : list nat → A) v :
  v ∈ values (tinit sh f) → ∃ idx, in_bounds sh idx ∧ v = f idx.
Proof.
  unfold tinit. simpl. intros (k & -> & Hk)%list_elem_of_fmap.
  apply elem_of_seq in Hk. exists (unravel sh k). split; [|done].
  apply unravel_in_bounds. lia.
Qed.

Lemma dot_abs_bound (x y : list Z) :
  (Z.abs (dot x y) ≤ dot (Z.abs <$> x) (Z.abs <$> y))%Z.
Proof.
  revert y. induction x as [|a x IH]; intros [|b y]; try done.
  rewrite !fmap_cons, !dot_cons. specialize (IH y).
  pose proof (Z.abs_triangle (a * b) (dot x y)).
  pose proof (Z.abs_mul a b). lia.
Qed.

(** On a valid observation and a hidden parameter of the right length that
    a tensor can hold, the reward computation returns the matrix of the
    float32 dot products. *)
Lemma _all_rewards_returns observation h w d g A B K Dg Da :
  heap w !! observation = Some d →
  valid_observation d g A B K Dg Da →
  length h = Dg + Da →
  Forall in_int64 h →
  ∃ rewards,
    _all_rewards observation h w = (Ok rewards, w) ∧
    shape rewards = [B; K] ∧
    wf_tensor rewards ∧
    (∀ b i, b < B → i < K →
       tget rewards [b; i] =
         Some (dot_float float32_prec float32_emax
                 (vec g [b] Dg ++ vec A [b; i] Da)
                 (round_nearest_even float32_prec <$> h))) ∧
    (∀ v, v ∈ values rewards →
       ∃ b i, b < B ∧ i < K ∧ tget rewards [b; i] = Some v).
Proof.
  intros Hd [Hg HA _ _ Hsg HsA] Hh Hcast.
  eexists. split; [|split_and!].
  - unfold _all_rewards, tf_cast_float32.
    rewrite decide_True, lift_bind_ok by done.
    rewrite (bind_ok _ _ _ _ _ (getitem_ok _ _ _ _ _ Hd Hg)).
    rewrite (bind_ok _ _ _ _ _ (getitem_ok _ _ _ _ _ Hd HA)).
    rewrite (tf_shape_getitem_rank3 _ _ _ _ HsA), lift_bind_ok.
    rewrite (tf_expand_dims_rank2 _ _ _ Hsg), lift_bind_ok.
    rewrite (tf_tile_rank3 _ B Dg K), lift_bind_ok by done.
    rewrite (tf_concat_rank3 _ _ B K Dg Da), lift_bind_ok by done.
    rewrite (tf_matvec_rank3 _ _ B K (Dg + Da)), lift_bind_ok
      by (done || (simpl; by rewrite Hh)).
    reflexivity.
  - done.
  - apply tinit_wf.
  - intros b i Hb Hi.
    rewrite tget_tinit by by apply in_bounds_2.
    f_equal. f_equal. by apply vec_concatenated.
  - intros v (idx & Hin & ->)%tinit_values.
    destruct idx as [|b [|i [|??]]];
      try by (apply Forall2_length in Hin; simpl in Hin; lia).
    apply Forall2_cons in Hin as [Hb Hin]. apply Forall2_cons in Hin as [Hi _].
    exists b, i. split_and!; [done..|].
    by rewrite tget_tinit by by apply in_bounds_2.
Qed.

(** Where nothing is rounded, the rewards are the exact dot products. *)
Lemma _all_rewards_valid observation h w d g A B K Dg Da :
  heap w !! observation = Some d →
  valid_observation d g A B K Dg Da →
  length h = Dg + Da →
  exact_rewards g A h B K Dg Da →
  ∃ rewards,
    _all_rewards observation h w = (Ok rewards, w) ∧
    shape rewards = [B; K] ∧
    wf_tensor rewards ∧
    (∀ b i, b < B → i < K →
       tget rewards [b; i] =
         Some (Num (dot (vec g [b] Dg ++ vec A [b; i] Da) h))) ∧
    ordinary_rewards rewards.
Proof.
  intros Hd Hv Hh (_ & _ & Hsmall & Hsum).
  destruct (_all_rewards_returns _ h _ _ _ _ _ _ _ _ Hd Hv Hh)
    as (rewards & Hrun & Hs & Hwf & Hent & Hval).
  { eapply Forall_impl; [done | apply small_in_int64]. }
  assert (∀ b i, b < B → i < K →
            tget rewards [b; i] =
              Some (Num (dot (vec g [b] Dg ++ vec A [b; i] Da) h))) as Hex.
  { intros b i Hb Hi. rewrite (Hent b i Hb Hi).
    rewrite round_small_list by (done || unfold float32_prec; lia).
    rewrite dot_float_exact;
      [done | unfold float32_prec; lia | done | by apply Hsum]. }
  exists rewards. split_and!; [done..|].
  unfold ordinary_rewards. rewrite Forall_forall. intros v Hv'.
  destruct (Hval v Hv') as (b & i & Hb & Hi & Hget).
  rewrite (Hex b i Hb Hi) in Hget. injection Hget as <-.
  eexists. split; [done|].
  pose proof (dot_abs_bound (vec g [b] Dg ++ vec A [b; i] Da) h).
  specialize (Hsum b i Hb Hi).
  assert (2 ^ 24 < 2 ^ 128 - 2 ^ 104)%Z by done.
  unfold float32_lowest. lia.
Qed.

(** Whatever the inputs, the reward computation leaves the interpreter
    state as it found it. *)
Lemma getitem_world obj key w : (getitem obj key w).2 = w.
Proof. unfold getitem. by repeat case_match. Qed.

Lemma _all_rewards_world observation h w :
  (_all_rewards observation h w).2 = w.
Proof.
  unfold _all_rewards, mbind, Py_bind, lift, mret, Py_ret.
  destruct (tf_cast_float32 h) as [hp|e]; [|done].
  pose proof (getitem_world observation GLOBAL_FEATURE_KEY w) as H1.
  destruct (getitem observation GLOBAL_FEATURE_KEY w) as [[g|e] w1];
    simpl in H1; subst w1; [|done].
  pose proof (getitem_world observation PER_ARM_FEATURE_KEY w) as H2.
  destruct (getitem observation PER_ARM_FEATURE_KEY w) as [[A|e] w2];
    simpl in H2; subst w2; [|done].
  by repeat case_match; simplify_eq.
Qed.

(** A reward tensor, when there is one, is a well-formed matrix. *)
Lemma tf_tile_shape t ms r :
  tf_tile t ms = Ok r → length (shape r) = length ms.
Proof.
  unfold tf_tile. case_decide as Hl; [|done]. intros [= <-]. simpl.
  rewrite length_zip_with. lia.
Qed.

Lemma tf_concat_shape a b r :
  tf_concat a b = Ok r → length (shape r) = length (shape a) ∧ wf_tensor r.
Proof.
  unfold tf_concat.
  destruct (reverse (shape a)) as [|da ra] eqn:Ea; [done|].
  destruct (reverse (shape b)) as [|db rb]; [done|].
  case_decide; [|done]. intros [= <-]. split; [|apply tinit_wf].
  simpl. rewrite length_app, length_reverse. simpl.
  apply (f_equal length) in Ea. rewrite length_reverse in Ea. simpl in Ea. lia.
Qed.

Lemma tf_matvec_shape a b r :
  tf_matvec a b = Ok r → S (length (shape r)) = length (shape a) ∧ wf_tensor r.
Proof.
  unfold tf_matvec.
  destruct (reverse (shape a)) as [|d [|k rpre]] eqn:Ea; [done..|].
  destruct (shape b) as [|n [|??]]; [done| |done].
  case_decide; [|done]. intros [= <-]. split; [|apply tinit_wf].
  simpl. rewrite length_reverse. simpl.
  apply (f_equal length) in Ea. rewrite length_reverse in Ea. simpl in Ea. lia.
Qed.

Lemma _all_rewards_matrix observation h w rewards w' :
  _all_rewards observation h w = (Ok rewards, w') →
  w' = w ∧ wf_tensor rewards ∧ ∃ B K, shape rewards = [B; K].
Proof.
  intros Hrun. split.
  { pose proof (_all_rewards_world observation h w) as Hw.
    by rewrite Hrun in Hw. }
  revert Hrun.
  unfold _all_rewards, mbind, Py_bind, lift, mret, Py_ret.
  destruct (tf_cast_float32 h) as [hp|e]; [|done].
  destruct (getitem observation GLOBAL_FEATURE_KEY w) as [[g|e] w1]; [|done].
  destruct (getitem observation PER_ARM_FEATURE_KEY w1) as [[A|e] w2]; [|done].
  destruct (tf_shape_getitem A 1) as [K|e]; [|done].
  destruct (tf_expand_dims g 1) as [ex|e]; [|done].
  destruct (tf_tile ex [1; K; 1]) as [tiled|e] eqn:Et; [|done].
  destruct (tf_concat tiled A) as [c|e] eqn:Ec; [|done].
  destruct (tf_matvec c hp) as [r|e] eqn:Em; [|done].
  intros [= <- _].
  apply tf_tile_shape in Et. apply tf_concat_shape in Ec as [Ec _].
  apply tf_matvec_shape in Em as [Em Hwf]. split; [done|].
  simpl in Et. rewrite Ec, Et in Em.
  destruct (shape r) as [|B [|K' [|??]]]; simpl in Em; try lia. eauto.
Qed.

(** The batch size and the number of arms of a reward matrix are those of
    the observation it was computed from. *)
Lemma _all_rewards_shape observation h w d g A B K Dg Da rewards w' :
  heap w !! observation = Some d →
  valid_observation d g A B K Dg Da →
  _all_rewards observation h w = (Ok rewards, w') →
  w' = w ∧ shape rewards = [B; K] ∧ wf_tensor rewards ∧
  length h = Dg + Da ∧ Forall in_int64 h.
Proof.
  intros Hd [Hg HA _ _ Hsg HsA] Hrun.
  destruct (_all_rewards_matrix _ _ _ _ _ Hrun) as (-> & Hwf & _).
  split; [done|]. revert Hrun.
  unfold _all_rewards.
  destruct (tf_cast_float32 h) as [hp|e] eqn:Ecast;
    [rewrite lift_bind_ok | by rewrite lift_bind_err].
  apply tf_cast_float32_inv in Ecast as [Hcast Hshp].
  rewrite (bind_ok _ _ _ _ _ (getitem_ok _ _ _ _ _ Hd Hg)).
  rewrite (bind_ok _ _ _ _ _ (getitem_ok _ _ _ _ _ Hd HA)).
  rewrite (tf_shape_getitem_rank3 _ _ _ _ HsA), lift_bind_ok.
  rewrite (tf_expand_dims_rank2 _ _ _ Hsg), lift_bind_ok.
  rewrite (tf_tile_rank3 _ B Dg K), lift_bind_ok by done.
  rewrite (tf_concat_rank3 _ _ B K Dg Da), lift_bind_ok by done.
  destruct (decide (length h = Dg + Da)) as [Hh|Hh].
  - rewrite (tf_matvec_rank3 _ _ B K (Dg + Da)), lift_bind_ok
      by (done || by rewrite Hshp, Hh).
    intros [= <-]. done.
  - rewrite (tf_matvec_rank3_mismatch _ _ B K (Dg + Da) (length h)),
      lift_bind_err by done.
    done.
Qed.

(** ** The two oracles on a reward matrix *)

Lemma tget_at_float (t : Tensor ExtZ) idx :
  wf_tensor t → in_bounds (shape t) idx → tget t idx = Some (at_float t idx).
Proof.
  intros Hwf Hb. unfold at_float, tget.
  rewrite (proj2 (in_boundsb_spec _ _) Hb).
  destruct (lookup_lt_is_Some_2 (values t) (ravel (shape t) idx)) as [v ->];
    [|done].
  rewrite Hwf. by apply ravel_lt.
Qed.

Lemma tget_values {A} (t : Tensor A) idx v :
  tget t idx = Some v → v ∈ values t.
Proof.
  unfold tget. destruct (in_boundsb (shape t) idx); [|done].
  intros H. apply list_elem_of_lookup. eauto.
Qed.

Lemma fiber_matrix (rewards : Tensor ExtZ) K b :
  fiber rewards 1 K [b] = (λ i, at_float rewards [b; i]) <$> seq 0 K.
Proof. done. Qed.

Lemma fiber_length (rewards : Tensor ExtZ) b K :
  length (fiber rewards 1 K [b]) = K.
Proof. unfold fiber. by rewrite length_fmap, length_seq. Qed.

Lemma fiber_lookup (rewards : Tensor ExtZ) B K b i :
  shape rewards = [B; K] → wf_tensor rewards → b < B →
  fiber rewards 1 K [b] !! i =
    (if decide (i < K) then tget rewards [b; i] else None).
Proof.
  intros Hs Hwf Hb. rewrite fiber_matrix, list_lookup_fmap.
  case_decide as Hi.
  - rewrite lookup_seq_lt by done. simpl.
    rewrite tget_at_float; [done..|]. rewrite Hs. by apply in_bounds_2.
  - rewrite lookup_seq_ge by lia. done.
Qed.

Lemma arm_rewards_length (rewards : Tensor ExtZ) b K :
  length (arm_rewards rewards b K) = K.
Proof. unfold arm_rewards. by rewrite length_fmap, length_seq. Qed.

(** A row of ordinary rewards is a list of numbers. *)
Lemma fiber_ordinary (rewards : Tensor ExtZ) B K b :
  shape rewards = [B; K] → wf_tensor rewards → b < B →
  ordinary_rewards rewards →
  fiber rewards 1 K [b] = Num <$> arm_rewards rewards b K ∧
  Forall (λ z, (float32_lowest < z)%Z) (arm_rewards rewards b K).
Proof.
  intros Hs Hwf Hb Hord.
  assert (∀ i, i < K → ordinary (at_float rewards [b; i])) as Hrow.
  { intros i Hi.
    assert (tget rewards [b; i] = Some (at_float rewards [b; i])) as Hget.
    { apply tget_at_float; [done|]. rewrite Hs. by apply in_bounds_2. }
    apply tget_values in Hget.
    unfold ordinary_rewards in Hord. rewrite Forall_forall in Hord.
    by apply Hord. }
  split.
  - rewrite fiber_matrix. unfold arm_rewards. rewrite <- list_fmap_compose.
    apply list_fmap_ext. intros k i Hk.
    apply lookup_seq in Hk as [-> Hk]. simpl.
    destruct (Hrow k Hk) as (z & -> & _). done.
  - unfold arm_rewards. rewrite Forall_fmap, Forall_lookup.
    intros k i Hk. apply lookup_seq in Hk as [-> Hk]. simpl.
    destruct (Hrow k Hk) as (z & -> & ?). done.
Qed.

Lemma arm_rewards_lookup (rewards : Tensor ExtZ) B K b i :
  shape rewards = [B; K] → wf_tensor rewards → b < B →
  ordinary_rewards rewards →
  Num <$> arm_rewards rewards b K !! i =
    (if decide (i < K) then tget rewards [b; i] else None).
Proof.
  intros Hs Hwf Hb Hord.
  rewrite <- (fiber_lookup _ B) by done.
  destruct (fiber_ordinary rewards B K b Hs Hwf Hb Hord) as [-> _].
  by rewrite list_lookup_fmap.
Qed.

Lemma tf_reduce_max_matrix (rewards : Tensor ExtZ) B K :
  shape rewards = [B; K] →
  tf_reduce_max rewards 1 =
    Ok (tinit [B] (λ idx, reduce_max_float (fiber rewards 1 K idx))).
Proof. intros Hs. unfold tf_reduce_max. by rewrite Hs. Qed.

Lemma tf_argmax_matrix (rewards : Tensor ExtZ) B K :
  shape rewards = [B; K] → K ≠ 0 →
  tf_argmax rewards 1 =
    Ok (tinit [B] (λ idx, int32 (Z.of_nat (argmax_float (fiber rewards 1 K idx))))).
Proof.
  intros Hs HK. unfold tf_argmax. rewrite Hs. simpl. by case_decide.
Qed.

Lemma tf_argmax_no_arm (rewards : Tensor ExtZ) B :
  shape rewards = [B; 0] →
  tf_argmax rewards 1 = Err (InvalidArgumentError "ArgMax").
Proof. intros Hs. unfold tf_argmax. by rewrite Hs. Qed.

Lemma int32_small z : (0 ≤ z < 2 ^ 31)%Z → int32 z = z.
Proof.
  intros Hz. unfold int32. rewrite Z.mod_small; lia.
Qed.

Lemma in_bounds_1 B b : b < B → in_bounds [B] [b].
Proof. intros. repeat constructor; done. Qed.

(** The maximum of values none of which is NaN bounds each of them and is
    one of them. *)
Lemma ext_max_no_nan a b : a ≠ NaN → b ≠ NaN → ext_max a b ≠ NaN.
Proof. by destruct a, b. Qed.

Lemma reduce_max_float_no_nan (l : list ExtZ) :
  Forall (λ v, v ≠ NaN) l → reduce_max_float l ≠ NaN.
Proof.
  induction 1 as [|a l Ha _ IH]; [done|]. by apply ext_max_no_nan.
Qed.

Lemma ext_le_trans a b c : ext_le a b → ext_le b c → ext_le a c.
Proof. destruct a, b, c; simpl; try done; lia. Qed.

Lemma ext_le_max_l a b : a ≠ NaN → b ≠ NaN → ext_le a (ext_max a b).
Proof. destruct a, b; simpl; try done; lia. Qed.

Lemma ext_le_max_r a b : a ≠ NaN → b ≠ NaN → ext_le b (ext_max a b).
Proof. destruct a, b; simpl; try done; lia. Qed.

Lemma reduce_max_float_upper (l : list ExtZ) x :
  Forall (λ v, v ≠ NaN) l → x ∈ l → ext_le x (reduce_max_float l).
Proof.
  induction 1 as [|a l Ha Hl IH]; [by intros ?%elem_of_nil|].
  pose proof (reduce_max_float_no_nan l Hl) as Hm.
  change (reduce_max_float (a :: l)) with (ext_max a (reduce_max_float l)).
  intros [->|Hx]%elem_of_cons.
  - by apply ext_le_max_l.
  - eapply ext_le_trans; [by apply IH | by apply ext_le_max_r].
Qed.

Lemma reduce_max_float_attained (l : list ExtZ) :
  l ≠ [] → reduce_max_float l ∈ l.
Proof.
  induction l as [|a l IH]; [done|]. intros _.
  change (reduce_max_float (a :: l)) with (ext_max a (reduce_max_float l)).
  destruct l as [|a' l].
  - simpl. destruct a; left.
  - specialize (IH ltac:(done)).
    assert (ext_max a (reduce_max_float (a' :: l)) = a ∨
            ext_max a (reduce_max_float (a' :: l)) = reduce_max_float (a' :: l))
      as [->| ->]; [|left|by right].
    destruct a, (reduce_max_float (a' :: l)); simpl; auto.
    destruct (Z.max_spec z z0) as [[? ->]|[? ->]]; auto.
Qed.

(** The entry of [optimal_reward] for batch element [b] bounds the rewards
    of all arms and is one of them. *)
Lemma reduce_max_entry (rewards : Tensor ExtZ) B K b :
  shape rewards = [B; K] → wf_tensor rewards → b < B →
  no_nan rewards →
  ∃ m, tget (tinit [B] (λ idx, reduce_max_float (fiber rewards 1 K idx))) [b]
         = Some m ∧
       (∀ i v, i < K → tget rewards [b; i] = Some v → ext_le v m) ∧
       (K ≠ 0 → ∃ i, i < K ∧ tget rewards [b; i] = Some m) ∧
       (K = 0 → m = Lowest).
Proof.
  intros Hs Hwf Hb Hnan.
  assert (Forall (λ v, v ≠ NaN) (fiber rewards 1 K [b])) as Hrow.
  { rewrite Forall_lookup. intros i v Hi.
    rewrite (fiber_lookup _ B) in Hi by done. case_decide; [|done].
    apply tget_values in Hi. unfold no_nan in Hnan.
    rewrite Forall_forall in Hnan. by apply Hnan. }
  eexists. split_and!.
  - by rewrite tget_tinit by by apply in_bounds_1.
  - intros i v Hi Hv. apply reduce_max_float_upper; [done|].
    apply list_elem_of_lookup. exists i.
    rewrite (fiber_lookup _ B) by done. by rewrite decide_True.
  - intros HK.
    destruct (proj1 (list_elem_of_lookup _ _)
                (reduce_max_float_attained (fiber rewards 1 K [b])
                   ltac:(intros Hnil; apply (f_equal length) in Hnil;
                         rewrite fiber_length in Hnil; done)))
      as [i Hi].
    rewrite (fiber_lookup _ B) in Hi by done.
    case_decide; [|done]. eauto.
  - intros ->. done.
Qed.

(** The entry of [optimal_action] for batch element [b] is the lowest
    position of the largest reward. *)
Lemma argmax_entry (rewards : Tensor ExtZ) B K b :
  shape rewards = [B; K] → wf_tensor rewards → b < B →
  K ≠ 0 → (Z.of_nat K ≤ 2 ^ 31)%Z →
  ordinary_rewards rewards →
  ∃ j m,
    tget (tinit [B] (λ idx, int32 (Z.of_nat (argmax_float (fiber rewards 1 K idx)))))
      [b] = Some (Z.of_nat j) ∧
    j < K ∧
    is_first_max (arm_rewards rewards b K) j m ∧
    tget rewards [b; j] = Some (Num m).
Proof.
  intros Hs Hwf Hb HK H31 Hord.
  destruct (fiber_ordinary rewards B K b Hs Hwf Hb Hord) as [Hrow Hlow].
  destruct (argmax_list_spec (arm_rewards rewards b K)) as [m Hm].
  { intros Hnil. apply (f_equal length) in Hnil.
    rewrite arm_rewards_length in Hnil. done. }
  exists (argmax_list (arm_rewards rewards b K)), m.
  pose proof Hm as (Hj & _ & _).
  assert (argmax_list (arm_rewards rewards b K) < K) as Hlt.
  { apply lookup_lt_Some in Hj. by rewrite arm_rewards_length in Hj. }
  split_and!; [|done..|].
  - rewrite tget_tinit by by apply in_bounds_1.
    rewrite Hrow, argmax_float_Num by done.
    f_equal. apply int32_small. lia.
  - pose proof (arm_rewards_lookup rewards B K b
                  (argmax_list (arm_rewards rewards b K)) Hs Hwf Hb Hord) as Hl.
    rewrite Hj, decide_True in Hl by done. done.
Qed.

Lemma is_first_max_arm_rewards (rewards : Tensor ExtZ) B K b j m :
  shape rewards = [B; K] → wf_tensor rewards → b < B →
  ordinary_rewards rewards →
  is_first_max (arm_rewards rewards b K) j m →
  (∀ i v, i < K → tget rewards [b; i] = Some v → ext_le v (Num m)) ∧
  (∀ i v, i < j → tget rewards [b; i] = Some v → ext_ltb v (Num m) = true).
Proof.
  intros Hs Hwf Hb Hord (Hj & Hup & Hlow).
  assert (j < K) as HjK.
  { apply lookup_lt_Some in Hj. by rewrite arm_rewards_length in Hj. }
  assert (∀ i v, i < K → tget rewards [b; i] = Some v →
            ∃ z, v = Num z ∧ arm_rewards rewards b K !! i = Some z) as Hnum.
  { intros i v Hi Hv.
    pose proof (arm_rewards_lookup rewards B K b i Hs Hwf Hb Hord) as Hl.
    rewrite decide_True, Hv in Hl by done.
    destruct (arm_rewards rewards b K !! i) as [z|]; [|done].
    injection Hl as <-. eauto. }
  split.
  - intros i v Hi Hv. destruct (Hnum i v Hi Hv) as (z & -> & Hz).
    simpl. by apply (Hup i).
  - intros i v Hi Hv. destruct (Hnum i v ltac:(lia) Hv) as (z & -> & Hz).
    simpl. apply Z.ltb_lt. by apply (Hlow i).
Qed.


Lemma ordinary_no_nan (rewards : Tensor ExtZ) :
  ordinary_rewards rewards → no_nan rewards.
Proof.
  unfold ordinary_rewards, no_nan. intros H.
  eapply Forall_impl; [done|]. by intros v (z & -> & _).
Qed.

Lemma optimal_reward_run observation h w rewards w' :
  _all_rewards observation h w = (Ok rewards, w') →
  optimal_reward observation h w = (tf_reduce_max rewards 1, w').
Proof. intros H. unfold optimal_reward. by rewrite (bind_ok _ _ _ _ _ H). Qed.

Lemma optimal_action_run observation h w rewards w' :
  _all_rewards observation h w = (Ok rewards, w') →
  optimal_action observation h w = (tf_argmax rewards 1, w').
Proof. intros H. unfold optimal_action. by rewrite (bind_ok _ _ _ _ _ H). Qed.

(** ** The claims about the oracles *)

(** C1. On an observation with global features [g] and per-arm features
    [A], and a hidden parameter vector as long as the concatenated features
    of an arm, where the features and the hidden parameter are integers
    below [2^24] in magnitude and, for every arm, the magnitudes of the
    products of its features with the hidden parameter add up to less than
    [2^24], [_all_rewards] returns a matrix whose entry for batch element
    [b] and arm [i] is the dot product of [g[b] ++ A[b][i]] with the hidden
    parameter vector. *)
Theorem all_rewards_is_linear observation h w d g A B K Dg Da :
  heap w !! observation = Some d →
  valid_observation d g A B K Dg Da →
  length h = Dg + Da →
  exact_rewards g A h B K Dg Da →
  ∃ rewards,
    _all_rewards observation h w = (Ok rewards, w) ∧
    shape rewards = [B; K] ∧
    ∀ b i, b < B → i < K →
      tget rewards [b; i] =
        Some (Num (dot (vec g [b] Dg ++ vec A [b; i] Da) h)).
Proof.
  intros Hd Hv Hh Hex.
  destruct (_all_rewards_valid _ _ _ _ _ _ _ _ _ _ Hd Hv Hh Hex)
    as (rewards & Hrun & Hs & _ & Hent & _).
  exists rewards. done.
Qed.

(** C2. [optimal_reward] returns, for each batch element, the maximum over
    the arms of the rewards that [_all_rewards] computes: whatever the
    hidden parameter, when [_all_rewards] returns a matrix of rewards,
    [optimal_reward] returns a vector whose entry, when no reward is NaN,
    bounds the reward of every arm and is the reward of one of them (with
    no arm at all, it is the identity of the maximum); on a valid
    observation with a hidden parameter as long as the features of an arm,
    whose elements a tensor can hold, both return; and where nothing is
    rounded no reward is NaN. *)
Theorem optimal_reward_is_max observation h w :
  (∀ rewards w',
     _all_rewards observation h w = (Ok rewards, w') →
     ∃ B K best,
       shape rewards = [B; K] ∧
       optimal_reward observation h w = (Ok best, w') ∧
       shape best = [B] ∧
       (no_nan rewards →
        ∀ b, b < B →
          ∃ m, tget best [b] = Some m ∧
            (∀ i v, i < K → tget rewards [b; i] = Some v → ext_le v m) ∧
            (K ≠ 0 → ∃ i, i < K ∧ tget rewards [b; i] = Some m) ∧
            (K = 0 → m = Lowest))) ∧
  (∀ d g A B K Dg Da,
     heap w !! observation = Some d →
     valid_observation d g A B K Dg Da →
     length h = Dg + Da →
     Forall in_int64 h →
     ∃ rewards best,
       _all_rewards observation h w = (Ok rewards, w) ∧
       shape rewards = [B; K] ∧
       optimal_reward observation h w = (Ok best, w) ∧
       shape best = [B]) ∧
  (∀ d g A B K Dg Da rewards w',
     heap w !! observation = Some d →
     valid_observation d g A B K Dg Da →
     length h = Dg + Da →
     exact_rewards g A h B K Dg Da →
     _all_rewards observation h w = (Ok rewards, w') →
     no_nan rewards).
Proof.
  split_and!.
  - intros rewards w' Hrun.
    destruct (_all_rewards_matrix _ _ _ _ _ Hrun) as (_ & Hwf & B & K & Hs).
    exists B, K. eexists. split; [done|]. split.
    { rewrite (optimal_reward_run _ _ _ _ _ Hrun).
      by rewrite (tf_reduce_max_matrix _ _ _ Hs). }
    split; [done|].
    intros Hnan b Hb. by apply reduce_max_entry.
  - intros d g A B K Dg Da Hd Hv Hh Hcast.
    destruct (_all_rewards_returns _ _ _ _ _ _ _ _ _ _ Hd Hv Hh Hcast)
      as (rewards & Hrun & Hs & Hwf & _).
    exists rewards. eexists. split; [done|]. split; [done|]. split.
    + rewrite (optimal_reward_run _ _ _ _ _ Hrun).
      by rewrite (tf_reduce_max_matrix _ _ _ Hs).
    + done.
  - intros d g A B K Dg Da rewards w' Hd Hv Hh Hex Hrun.
    destruct (_all_rewards_valid _ _ _ _ _ _ _ _ _ _ Hd Hv Hh Hex)
      as (rewards' & Hrun' & _ & _ & _ & Hord).
    rewrite Hrun in Hrun'. injection Hrun' as -> _.
    by apply ordinary_no_nan.
Qed.

(** C4. The results of both oracles are vectors with one entry for each
    batch element of the observation: whatever the hidden parameter, a
    result of an oracle is such a vector; and with a hidden parameter as
    long as the features of an arm, whose elements a tensor can hold,
    [optimal_reward] has a result, and [optimal_action] has one as soon as
    there is an arm. *)
Theorem oracle_batch_dimension observation h w d g A B K Dg Da :
  heap w !! observation = Some d →
  valid_observation d g A B K Dg Da →
  (∀ best w', optimal_reward observation h w = (Ok best, w') →
     shape best = [B] ∧ length (values best) = B) ∧
  (∀ acts w', optimal_action observation h w = (Ok acts, w') →
     shape acts = [B] ∧ length (values acts) = B) ∧
  (length h = Dg + Da → Forall in_int64 h →
   (∃ best, optimal_reward observation h w = (Ok best, w) ∧
            shape best = [B] ∧ length (values best) = B) ∧
   (K ≠ 0 →
    ∃ acts, optimal_action observation h w = (Ok acts, w) ∧
            shape acts = [B] ∧ length (values acts) = B)).
Proof.
  intros Hd Hv. split_and!.
  - intros best w' Hrun. unfold optimal_reward in Hrun.
    apply bind_inv in Hrun as [(? & ? & [=]) | (rewards & w1 & Hrew & Hrun)].
    destruct (_all_rewards_shape _ _ _ _ _ _ _ _ _ _ _ _ Hd Hv Hrew)
      as (_ & Hs & _).
    rewrite (tf_reduce_max_matrix _ _ _ Hs) in Hrun. injection Hrun as <- _.
    split; [done|]. rewrite tinit_wf. simpl. lia.
  - intros acts w' Hrun. unfold optimal_action in Hrun.
    apply bind_inv in Hrun as [(? & ? & [=]) | (rewards & w1 & Hrew & Hrun)].
    destruct (_all_rewards_shape _ _ _ _ _ _ _ _ _ _ _ _ Hd Hv Hrew)
      as (_ & Hs & _).
    unfold lift, tf_argmax in Hrun. rewrite Hs in Hrun. simpl in Hrun.
    case_decide; [done|]. injection Hrun as <- _.
    split; [done|]. rewrite tinit_wf. simpl. lia.
  - intros Hh Hcast.
    destruct (_all_rewards_returns _ _ _ _ _ _ _ _ _ _ Hd Hv Hh Hcast)
      as (rewards & Hrun & Hs & Hwf & _).
    split.
    + eexists. rewrite (optimal_reward_run _ _ _ _ _ Hrun).
      rewrite (tf_reduce_max_matrix _ _ _ Hs). split_and!; [done..|].
      rewrite tinit_wf. simpl. lia.
    + intros HK. eexists. rewrite (optimal_action_run _ _ _ _ _ Hrun).
      rewrite (tf_argmax_matrix _ _ _ Hs HK). split_and!; [done..|].
      rewrite tinit_wf. simpl. lia.
Qed.



(** ** Statelessness of the oracles *)

Lemma getitem_reads obj key w1 w2 :
  heap w1 !! obj = heap w2 !! obj →
  (getitem obj key w1).1 = (getitem obj key w2).1.
Proof. intros H. unfold getitem. rewrite H. by repeat case_match. Qed.

Lemma getitem_run obj key w : getitem obj key w = ((getitem obj key w).1, w).
Proof. unfold getitem. by repeat case_match. Qed.

Lemma _all_rewards_reads observation h w1 w2 :
  heap w1 !! observation = heap w2 !! observation →
  (_all_rewards observation h w1).1 = (_all_rewards observation h w2).1.
Proof.
  intros H. unfold _all_rewards, mbind, Py_bind.
  unfold lift at 1 7.
  destruct (tf_cast_float32 h) as [hp|e]; [|done].
  rewrite (getitem_run _ GLOBAL_FEATURE_KEY w1), (getitem_run _ GLOBAL_FEATURE_KEY w2).
  rewrite (getitem_reads _ GLOBAL_FEATURE_KEY _ _ H).
  destruct (getitem observation GLOBAL_FEATURE_KEY w2).1 as [g|e]; [|done].
  rewrite (getitem_run _ PER_ARM_FEATURE_KEY w1), (getitem_run _ PER_ARM_FEATURE_KEY w2).
  rewrite (getitem_reads _ PER_ARM_FEATURE_KEY _ _ H).
  destruct (getitem observation PER_ARM_FEATURE_KEY w2).1 as [A|e]; [|done].
  unfold lift, mret, Py_ret. by repeat case_match.
Qed.

Lemma _all_rewards_run observation h w :
  _all_rewards observation h w = ((_all_rewards observation h w).1, w).
Proof.
  pose proof (_all_rewards_world observation h w).
  destruct (_all_rewards observation h w). simpl in *. by subst.
Qed.

(** C7. The oracles are deterministic and stateless: they leave the
    interpreter state as it is, their result depends on that state only
    through the observation they are given, and a second evaluation on
    the same inputs returns what the first returned. *)
Theorem oracles_stateless observation h w1 w2 :
  heap w1 !! observation = heap w2 !! observation →
  ((optimal_reward observation h w1).2 = w1 ∧
   (optimal_action observation h w1).2 = w1) ∧
  ((optimal_reward observation h w1).1 = (optimal_reward observation h w2).1 ∧
   (optimal_action observation h w1).1 = (optimal_action observation h w2).1) ∧
  ((optimal_reward observation h (optimal_reward observation h w1).2).1
     = (optimal_reward observation h w1).1 ∧
   (optimal_action observation h (optimal_action observation h w1).2).1
     = (optimal_action observation h w1).1).
Proof.
  intros H.
  assert (∀ w, (optimal_reward observation h w).2 = w) as Hr.
  { intros w. unfold optimal_reward, mbind, Py_bind.
    rewrite (_all_rewards_run observation h w).
    by destruct (_all_rewards observation h w).1. }
  assert (∀ w, (optimal_action observation h w).2 = w) as Ha.
  { intros w. unfold optimal_action, mbind, Py_bind.
    rewrite (_all_rewards_run observation h w).
    by destruct (_all_rewards observation h w).1. }
  split_and!; [done..| | | |].
  - unfold optimal_reward, mbind, Py_bind.
    rewrite (_all_rewards_run observation h w1), (_all_rewards_run observation h w2).
    rewrite (_all_rewards_reads _ _ _ _ H).
    by destruct (_all_rewards observation h w2).1.
  - unfold optimal_action, mbind, Py_bind.
    rewrite (_all_rewards_run observation h w1), (_all_rewards_run observation h w2).
    rewrite (_all_rewards_reads _ _ _ _ H).
    by destruct (_all_rewards observation h w2).1.
  - by rewrite Hr.
  - by rewrite Ha.
Qed.

(** ** The assembly that [main] hands to the trainer *)

Lemma lib_inv {A} c (v a : A) w w' :
  lib c v w = (Ok a, w') → a = v ∧ framework c w = (None, w').
Proof.
  unfold lib. destruct (framework c w) as [[e|] w1]; [done|].
  by intros [= <- <-].
Qed.

Lemma main_inv FLAGS w r w' :
  main FLAGS w = (Ok r, w') →
  ∃ network transformation,
    (FLAGS_network FLAGS = "commontower" ∧
     network = create_feed_forward_common_tower_network
                 (observation_spec main_environment) [4; 3] [3; 4] [4; 2]
     ∨ FLAGS_network FLAGS = "dotproduct" ∧
       network = create_feed_forward_dot_product_network
                   (observation_spec main_environment) [4; 3; 6] [3; 4; 6]) ∧
    transformation =
      (if FLAGS_drop_arm_obs FLAGS then Some drop_arm_feature_fn else None) ∧
    r = mkTrainCall (FLAGS_root_dir FLAGS)
          (NeuralEpsilonGreedyAgent
             (time_step_spec main_environment) (action_spec main_environment)
             network (AdamOptimizer LR) EPSILON true transformation
             PREDICTED_REWARDS_MEAN)
          main_environment TRAINING_LOOPS STEPS_PER_LOOP main_metrics
          transformation.
Proof.
  unfold main. intros H.
  apply bind_inv in H as [(? & ? & [=]) | (? & w1 & [-> _]%lib_inv & H)].
  apply bind_inv in H as [(? & ? & [=]) | (? & w2 & [-> _]%lib_inv & H)].
  apply bind_inv in H as [(? & ? & [=]) | (? & w3 & [-> _]%lib_inv & H)].
  apply bind_inv in H as [(? & ? & [=]) | (? & w4 & [-> _]%lib_inv & H)].
  apply bind_inv in H as [(? & ? & [=]) | (net & w5 & Hnet & H)].
  apply bind_inv in H as [(? & ? & [=]) | (? & w6 & [-> _]%lib_inv & H)].
  apply bind_inv in H as [(? & ? & [=]) | (? & w7 & [-> _]%lib_inv & H)].
  apply bind_inv in H as [(? & ? & [=]) | (network & w8 & Hbound & H)].
  apply bind_inv in H as [(? & ? & [=]) | (? & w9 & [-> _]%lib_inv & H)].
  apply bind_inv in H as [(? & ? & [=]) | (? & w10 & [-> _]%lib_inv & H)].
  apply bind_inv in H as [(? & ? & [=]) | (? & w11 & [-> _]%lib_inv & H)].
  apply bind_inv in H as [(? & ? & [=]) | (? & w12 & [-> _]%lib_inv & H)].
  apply bind_inv in H as [(? & ? & [=]) | (? & w13 & _ & H)].
  injection H as <- <-.
  exists network. eexists. split_and!; [|done..].
  destruct net as [net|]; simpl in Hbound; [|done].
  injection Hbound as -> _.
  repeat case_decide.
  - left. split; [done|].
    apply bind_inv in Hnet as [(? & ? & [=]) | (? & ? & [-> _]%lib_inv & Hnet)].
    by injection Hnet as <- _.
  - right. split; [done|].
    apply bind_inv in Hnet as [(? & ? & [=]) | (? & ? & [-> _]%lib_inv & Hnet)].
    by injection Hnet as <- _.
  - done.
Qed.

Lemma main_first_raise FLAGS w :
  FLAGS_network FLAGS ∈ network_enum_values →
  match first_raise (main_library_calls FLAGS) w with
  | (Some e, w') => main FLAGS w = (Err e, w')
  | (None, w') => ∃ r, main FLAGS w = (Ok r, w')
  end.
Proof.
  intros Hnet.
  assert (FLAGS_network FLAGS = "commontower" ∨ FLAGS_network FLAGS = "dotproduct")
    as Hcases.
  { unfold network_enum_values in Hnet.
    apply elem_of_cons in Hnet as [?|Hnet]; [by left|].
    apply elem_of_cons in Hnet as [?|Hnet]; [by right|].
    by apply elem_of_nil in Hnet. }
  unfold main, main_library_calls, mbind, Py_bind, lib, mret, Py_ret.
  destruct Hcases as [Hn|Hn]; rewrite Hn; simpl;
    repeat (match goal with
            | |- context [framework ?c ?w] =>
                destruct (framework c w) as [[?|] ?]; simpl; try done
            end);
    eauto.
Qed.

Lemma main_unbound_network FLAGS w :
  FLAGS_network FLAGS ∉ network_enum_values →
  match first_raise
          [call_enable_v2_behavior; call_StationaryStochasticPerArmPyEnvironment;
           call_TFPyEnvironment; call_observation_spec;
           call_time_step_spec; call_action_spec] w with
  | (Some e, w') => main FLAGS w = (Err e, w')
  | (None, w') => main FLAGS w = (Err (UnboundLocalError "network"), w')
  end.
Proof.
  intros Hnet.
  assert (FLAGS_network FLAGS ≠ "commontower" ∧ FLAGS_network FLAGS ≠ "dotproduct")
    as [H1 H2].
  { unfold network_enum_values in Hnet. split; intros Heq; apply Hnet; rewrite Heq.
    - left.
    - right. left. }
  unfold main, mbind, Py_bind, lib, mret, Py_ret.
  repeat case_decide; try done. simpl.
  repeat (match goal with
          | |- context [framework ?c ?w] =>
              destruct (framework c w) as [[?|] ?]; simpl; try done
          end).
Qed.

(** ** The trajectory transformation *)

Lemma drop_arm_feature_fn_run traj w d :
  heap w !! observation traj = Some d →
  is_Some (d !! PER_ARM_FEATURE_KEY) →
  drop_arm_feature_fn traj w =
    (Ok (mkTrajectory (step_type traj) (fresh (dom (heap w))) (action traj)
           (policy_info traj) (next_step_type traj) (reward traj)
           (discount traj)),
     mkWorld (<[fresh (dom (heap w)) := delete PER_ARM_FEATURE_KEY d]> (heap w))
       (rng w)).
Proof.
  intros Hd [v Hv].
  unfold drop_arm_feature_fn, mbind, Py_bind, copy_deepcopy, delitem.
  rewrite Hd. simpl. rewrite lookup_insert_eq, Hv. simpl.
  by rewrite insert_insert_eq.
Qed.

Lemma drop_arm_feature_fn_missing traj w d :
  heap w !! observation traj = Some d →
  d !! PER_ARM_FEATURE_KEY = None →
  (drop_arm_feature_fn traj w).1 = Err (KeyError PER_ARM_FEATURE_KEY).
Proof.
  intros Hd Hv.
  unfold drop_arm_feature_fn, mbind, Py_bind, copy_deepcopy, delitem.
  rewrite Hd. simpl. by rewrite lookup_insert_eq, Hv.
Qed.

Lemma fresh_reference_unused (w : World) l d :
  heap w !! l = Some d → l ≠ fresh (dom (heap w)).
Proof.
  intros Hl ->. apply (is_fresh (dom (heap w))).
  apply elem_of_dom. eauto.
Qed.

(** C5. With [drop_arm_obs] set, the transformation that [main] hands to
    the agent and to the trainer returns a trajectory whose observation
    has lost the per-arm features and nothing else, with all other fields
    as they were; the trajectory it was given keeps its observation.
    With [drop_arm_obs] unset there is no transformation. *)
Theorem drop_arm_obs_transformation FLAGS w r w' :
  main FLAGS w = (Ok r, w') →
  (FLAGS_drop_arm_obs FLAGS = false →
   training_data_spec_transformation_fn r = None ∧
   agent_training_data_spec_transformation_fn (agent r) = None) ∧
  (FLAGS_drop_arm_obs FLAGS = true →
   ∃ fn,
     training_data_spec_transformation_fn r = Some fn ∧
     agent_training_data_spec_transformation_fn (agent r) = Some fn ∧
     ∀ traj w0 d,
       heap w0 !! observation traj = Some d →
       is_Some (d !! PER_ARM_FEATURE_KEY) →
       ∃ traj' w1 d',
         fn traj w0 = (Ok traj', w1) ∧
         heap w1 !! observation traj' = Some d' ∧
         d' !! PER_ARM_FEATURE_KEY = None ∧
         (∀ key, key ≠ PER_ARM_FEATURE_KEY → d' !! key = d !! key) ∧
         step_type traj' = step_type traj ∧
         action traj' = action traj ∧
         policy_info traj' = policy_info traj ∧
         next_step_type traj' = next_step_type traj ∧
         reward traj' = reward traj ∧
         discount traj' = discount traj ∧
         heap w1 !! observation traj = Some d ∧
         (∀ l, l ≠ observation traj' → heap w1 !! l = heap w0 !! l) ∧
         rng w1 = rng w0).
Proof.
  intros (network & transformation & _ & Ht & ->)%main_inv. simpl. split.
  - intros Hflag. rewrite Hflag in Ht. by subst.
  - intros Hflag. rewrite Hflag in Ht. subst transformation.
    exists drop_arm_feature_fn. split_and!; [done..|].
    intros traj w0 d Hd Hkey.
    eexists _, _, (delete PER_ARM_FEATURE_KEY d).
    split; [by apply drop_arm_feature_fn_run|]. simpl.
    split_and!; try done.
    + by rewrite lookup_insert_eq.
    + by rewrite lookup_delete_eq.
    + intros key Hne. by rewrite lookup_delete_ne.
    + rewrite lookup_insert_ne; [done|].
      intros Heq. by apply (fresh_reference_unused w0 _ d Hd).
    + intros l Hne. by rewrite lookup_insert_ne.
Qed.

(** ** The network flag *)

(** C6. The network flag takes the values [commontower] and [dotproduct]
    and no other, [commontower] when it is not given; [main] builds the
    common tower network for the first and the dot product network for
    the second, and that network is the reward network of the agent. *)
Theorem network_flag_selects_network :
  (∀ arg,
     parse_enum "network" network_default network_enum_values arg =
       match arg with
       | None => Ok "commontower"
       | Some v =>
           if decide (v = "commontower" ∨ v = "dotproduct") then Ok v
           else Err (IllegalFlagValueError "network")
       end) ∧
  (∀ cl FLAGS,
     parse_flags cl = Ok FLAGS →
     FLAGS_network FLAGS = default "commontower" (arg_network cl) ∧
     (FLAGS_network FLAGS = "commontower" ∨ FLAGS_network FLAGS = "dotproduct")) ∧
  (∀ FLAGS w r w',
     main FLAGS w = (Ok r, w') →
     (FLAGS_network FLAGS = "commontower" ∨ FLAGS_network FLAGS = "dotproduct") ∧
     (FLAGS_network FLAGS = "commontower" →
      reward_network (agent r) =
        create_feed_forward_common_tower_network
          (observation_spec (environment r)) [4; 3] [3; 4] [4; 2]) ∧
     (FLAGS_network FLAGS = "dotproduct" →
      reward_network (agent r) =
        create_feed_forward_dot_product_network
          (observation_spec (environment r)) [4; 3; 6] [3; 4; 6])).
Proof.
  assert (∀ arg,
     parse_enum "network" network_default network_enum_values arg =
       match arg with
       | None => Ok "commontower"
       | Some v =>
           if decide (v = "commontower" ∨ v = "dotproduct") then Ok v
           else Err (IllegalFlagValueError "network")
       end) as Hparse.
  { intros [v|]; [|done]. unfold parse_enum, network_enum_values.
    repeat case_decide; try done.
    - exfalso. apply elem_of_cons in H as [?|H]; [tauto|].
      apply elem_of_cons in H as [?|H]; [tauto|]. by apply elem_of_nil in H.
    - exfalso. apply H. destruct H0 as [->| ->]; [left | right; left]. }
  split_and!; [done| |].
  - intros cl FLAGS. unfold parse_flags. rewrite Hparse.
    destruct (arg_network cl) as [v|]; simpl.
    + case_decide; [|done]. intros [= <-]. done.
    + intros [= <-]. simpl. split; [done | by left].
  - intros FLAGS w r w' (network & transformation & Hnet & _ & ->)%main_inv.
    simpl. split_and!.
    + destruct Hnet as [[? _]|[? _]]; [by left | by right].
    + intros Hc. destruct Hnet as [[_ ->]|[Hd _]]; [done|]. congruence.
    + intros Hd. destruct Hnet as [[Hc _]|[_ ->]]; [congruence | done].
Qed.

(** ** Exceptions *)

Lemma oracles_propagate observation h w e w' :
  _all_rewards observation h w = (Err e, w') →
  optimal_reward observation h w = (Err e, w') ∧
  optimal_action observation h w = (Err e, w').
Proof.
  intros H. unfold optimal_reward, optimal_action.
  by rewrite !(bind_err _ _ _ _ _ H).
Qed.

(** The conversion of the hidden parameter comes first: when it raises,
    the observation is not looked at. *)
Lemma _all_rewards_cast_error observation h w :
  ¬ Forall in_int64 h →
  _all_rewards observation h w = (Err (ValueError "convert_to_tensor"), w).
Proof.
  intros Hh. unfold _all_rewards.
  by rewrite (tf_cast_float32_raises _ Hh), lift_bind_err.
Qed.

Lemma _all_rewards_missing_key observation h w d :
  heap w !! observation = Some d →
  Forall in_int64 h →
  (d !! GLOBAL_FEATURE_KEY = None →
   _all_rewards observation h w = (Err (KeyError GLOBAL_FEATURE_KEY), w)) ∧
  (is_Some (d !! GLOBAL_FEATURE_KEY) → d !! PER_ARM_FEATURE_KEY = None →
   _all_rewards observation h w = (Err (KeyError PER_ARM_FEATURE_KEY), w)).
Proof.
  intros Hd Hh.
  destruct (tf_cast_float32_returns h Hh) as (hp & Hcast & _).
  split.
  - intros Hg. unfold _all_rewards. rewrite Hcast, lift_bind_ok.
    by rewrite (bind_err _ _ _ _ _ (getitem_missing _ _ _ _ Hd Hg)).
  - intros [g Hg] HA. unfold _all_rewards. rewrite Hcast, lift_bind_ok.
    rewrite (bind_ok _ _ _ _ _ (getitem_ok _ _ _ _ _ Hd Hg)).
    by rewrite (bind_err _ _ _ _ _ (getitem_missing _ _ _ _ Hd HA)).
Qed.

Lemma _all_rewards_operator_error observation h w d g A e :
  heap w !! observation = Some d →
  d !! GLOBAL_FEATURE_KEY = Some g →
  d !! PER_ARM_FEATURE_KEY = Some A →
  first_operator_error g A h = Some e →
  _all_rewards observation h w = (Err e, w).
Proof.
  intros Hd Hg HA. unfold first_operator_error, _all_rewards.
  destruct (tf_cast_float32 h) as [hp|e1];
    [rewrite lift_bind_ok | rewrite lift_bind_err; by intros [= ->]].
  rewrite (bind_ok _ _ _ _ _ (getitem_ok _ _ _ _ _ Hd Hg)).
  rewrite (bind_ok _ _ _ _ _ (getitem_ok _ _ _ _ _ Hd HA)).
  destruct (tf_shape_getitem A 1) as [K|e1];
    [rewrite lift_bind_ok | rewrite lift_bind_err; by intros [= ->]].
  destruct (tf_expand_dims g 1) as [ex|e1];
    [rewrite lift_bind_ok | rewrite lift_bind_err; by intros [= ->]].
  destruct (tf_tile ex [1; K; 1]) as [tiled|e1];
    [rewrite lift_bind_ok | rewrite lift_bind_err; by intros [= ->]].
  destruct (tf_concat tiled A) as [c|e1];
    [rewrite lift_bind_ok | rewrite lift_bind_err; by intros [= ->]].
  destruct (tf_matvec c hp) as [r|e1];
    [done | rewrite lift_bind_err; by intros [= ->]].
Qed.

Lemma _all_rewards_mismatch observation h w d g A B K Dg Da :
  heap w !! observation = Some d →
  valid_observation d g A B K Dg Da →
  Forall in_int64 h →
  length h ≠ Dg + Da →
  _all_rewards observation h w = (Err (InvalidArgumentError "MatMul"), w).
Proof.
  intros Hd [Hg HA _ _ Hsg HsA] Hcast Hh.
  apply (_all_rewards_operator_error _ _ _ d g A); [done..|].
  unfold first_operator_error.
  destruct (tf_cast_float32_returns h Hcast) as (hp & -> & Hshp).
  rewrite (tf_shape_getitem_rank3 _ _ _ _ HsA).
  rewrite (tf_expand_dims_rank2 _ _ _ Hsg).
  rewrite (tf_tile_rank3 _ B Dg K) by done.
  rewrite (tf_concat_rank3 _ _ B K Dg Da) by done.
  by rewrite (tf_matvec_rank3_mismatch _ _ B K (Dg + Da) (length h)).
Qed.

(** C8. Nothing is caught in the script itself, and of the exceptions that
    its library operations raise all but the flag errors leave it
    unchanged.  [main] ends with the exception of the first library call
    that raises, in the state that call left, and succeeds when none raises
    (were the network flag to hold a value that is not listed, [main] would
    end with the first exception among its calls up to the agent, or with
    the unbound variable); the script ends as [main] does on the parsed
    flags; a value of the network flag that is not listed is refused by the
    flag definition, and this exception does not leave the script:
    [app.run] reports it and exits with status 1.  An exception of the
    reward computation is the result of both oracles; a hidden parameter
    that no tensor can hold, a missing key and a failing operator are the
    result of the reward computation; the transformation and the reward
    function of the environment hand on the exceptions of [del] and of
    [np.dot]. *)
Theorem no_local_error_handling :
  (∀ FLAGS w,
     FLAGS_network FLAGS ∈ network_enum_values →
     match first_raise (main_library_calls FLAGS) w with
     | (Some e, w') => main FLAGS w = (Err e, w')
     | (None, w') => ∃ r, main FLAGS w = (Ok r, w')
     end) ∧
  (∀ FLAGS w,
     FLAGS_network FLAGS ∉ network_enum_values →
     match first_raise
             [call_enable_v2_behavior;
              call_StationaryStochasticPerArmPyEnvironment;
              call_TFPyEnvironment; call_observation_spec;
              call_time_step_spec; call_action_spec] w with
     | (Some e, w') => main FLAGS w = (Err e, w')
     | (None, w') => main FLAGS w = (Err (UnboundLocalError "network"), w')
     end) ∧
  (∀ cl FLAGS w, parse_flags cl = Ok FLAGS → script cl w = main FLAGS w) ∧
  (∀ cl v w,
     arg_network cl = Some v → v ∉ network_enum_values →
     parse_flags cl = Err (IllegalFlagValueError "network") ∧
     script cl w = (Err (SystemExit 1), w)) ∧
  (∀ observation h w e w',
     _all_rewards observation h w = (Err e, w') →
     optimal_reward observation h w = (Err e, w') ∧
     optimal_action observation h w = (Err e, w')) ∧
  (∀ observation h w,
     ¬ Forall in_int64 h →
     _all_rewards observation h w
       = (Err (ValueError "convert_to_tensor"), w)) ∧
  (∀ observation h w d,
     heap w !! observation = Some d →
     Forall in_int64 h →
     (d !! GLOBAL_FEATURE_KEY = None →
      _all_rewards observation h w = (Err (KeyError GLOBAL_FEATURE_KEY), w)) ∧
     (is_Some (d !! GLOBAL_FEATURE_KEY) → d !! PER_ARM_FEATURE_KEY = None →
      _all_rewards observation h w = (Err (KeyError PER_ARM_FEATURE_KEY), w)) ∧
     (∀ g A e,
        d !! GLOBAL_FEATURE_KEY = Some g → d !! PER_ARM_FEATURE_KEY = Some A →
        first_operator_error g A h = Some e →
        _all_rewards observation h w = (Err e, w))) ∧
  (∀ observation h w d g A B K Dg Da,
     heap w !! observation = Some d →
     valid_observation d g A B K Dg Da →
     Forall in_int64 h →
     length h ≠ Dg + Da →
     optimal_reward observation h w = (Err (InvalidArgumentError "MatMul"), w) ∧
     optimal_action observation h w = (Err (InvalidArgumentError "MatMul"), w)) ∧
  (∀ traj w d,
     heap w !! observation traj = Some d →
     d !! PER_ARM_FEATURE_KEY = None →
     (drop_arm_feature_fn traj w).1 = Err (KeyError PER_ARM_FEATURE_KEY)) ∧
  (∀ theta x w,
     length x ≠ length theta →
     LinearNormalReward_call (LinearNormalReward_init theta) x w
       = (Err (ValueError "dot"), w)).
Proof.
  split_and!.
  - apply main_first_raise.
  - apply main_unbound_network.
  - intros cl FLAGS w Hp. unfold script, app_run. by rewrite Hp.
  - intros cl v w Hv Hbad.
    assert (parse_flags cl = Err (IllegalFlagValueError "network")) as Hp.
    { unfold parse_flags, parse_enum. rewrite Hv. by rewrite decide_False. }
    split; [done|]. unfold script, app_run. by rewrite Hp.
  - apply oracles_propagate.
  - apply _all_rewards_cast_error.
  - intros observation h w d Hd Hh.
    destruct (_all_rewards_missing_key observation h w d Hd Hh) as [H1 H2].
    split_and!; [done..|].
    intros g A e Hg HA. by apply (_all_rewards_operator_error _ _ _ d g A).
  - intros observation h w d g A B K Dg Da Hd Hv Hcast Hh.
    apply oracles_propagate.
    by apply (_all_rewards_mismatch _ _ _ d g A B K Dg Da).
  - apply drop_arm_feature_fn_missing.
  - intros th x w Hlen. unfold LinearNormalReward_call, np_dot. simpl.
    by rewrite decide_False.
Qed.

(** ** The oracle and the environment *)

Lemma vec_length t idx n : length (vec t idx n) = n.
Proof. unfold vec. by rewrite length_fmap, length_seq. Qed.

Lemma LinearNormalReward_call_run th x w :
  length x = length th → Forall small th →
  (dot (Z.abs <$> x) (Z.abs <$> th) < 2 ^ 24)%Z →
  LinearNormalReward_call (LinearNormalReward_init th) x w =
    (Ok (mkNormalSample (Num (dot x th)) 1 (rng w)),
     mkWorld (heap w) (normal_state bitgen (rng w))).
Proof.
  intros Hlen Hth Hsum. unfold LinearNormalReward_call. simpl.
  by rewrite np_dot_exact, lift_bind_ok.
Qed.

(** ** The rows of a tensor in its buffer *)

Lemma numel_snoc sh n : numel (sh ++ [n]) = numel sh * n.
Proof. induction sh as [|s sh IH]; simpl; [lia|]. rewrite IH. lia. Qed.

Lemma ravel_snoc sh idx n j :
  in_bounds sh idx → ravel (sh ++ [n]) (idx ++ [j]) = ravel sh idx * n + j.
Proof.
  unfold in_bounds. induction 1 as [|i s idx sh _ _ IH]; simpl; [lia|].
  rewrite IH, numel_snoc. lia.
Qed.

Lemma in_bounds_snoc sh idx n j :
  in_bounds sh idx → j < n → in_bounds (sh ++ [n]) (idx ++ [j]).
Proof.
  unfold in_bounds. intros H Hj. apply Forall2_app; [done|].
  by repeat constructor.
Qed.

(** [vec t idx n] is the row of the buffer of [t] at [idx]. *)
Lemma vec_slice (t : Tensor Z) sh n idx :
  shape t = sh ++ [n] → wf_tensor t → in_bounds sh idx →
  vec t idx n = take n (drop (ravel sh idx * n) (values t)).
Proof.
  intros Hs Hwf Hb. apply list_eq. intros j. unfold vec.
  rewrite list_lookup_fmap.
  destruct (decide (j < n)) as [Hj|Hj].
  - rewrite lookup_seq_lt by done. simpl.
    rewrite lookup_take_lt, lookup_drop by done.
    unfold at_, tget. rewrite Hs.
    rewrite (proj2 (in_boundsb_spec _ _) (in_bounds_snoc _ _ _ _ Hb Hj)).
    rewrite ravel_snoc by done.
    destruct (lookup_lt_is_Some_2 (values t) (ravel sh idx * n + j)) as [v Hv].
    { rewrite Hwf, Hs, numel_snoc. pose proof (ravel_lt _ _ Hb). nia. }
    by rewrite Hv.
  - rewrite lookup_seq_ge by lia. simpl.
    by rewrite lookup_take_ge by lia.
Qed.

(** ** The numbers of this environment are exact *)

Lemma at_all_values (P : Z → Prop) (t : Tensor Z) idx :
  wf_tensor t → all_values P t → in_bounds (shape t) idx → P (at_ t idx).
Proof.
  intros Hwf Hall Hb. unfold at_, tget.
  rewrite (proj2 (in_boundsb_spec _ _) Hb).
  destruct (lookup_lt_is_Some_2 (values t) (ravel (shape t) idx)) as [v Hv].
  { rewrite Hwf. by apply ravel_lt. }
  rewrite Hv. simpl.
  unfold all_values in Hall. rewrite Forall_lookup in Hall. by eapply Hall.
Qed.

Lemma vec_all_values (P : Z → Prop) (t : Tensor Z) sh n idx :
  shape t = sh ++ [n] → wf_tensor t → all_values P t → in_bounds sh idx →
  Forall P (vec t idx n).
Proof.
  intros Hs Hwf Hall Hb. unfold vec. apply Forall_fmap, Forall_forall.
  intros j Hj%elem_of_seq. simpl. apply at_all_values; [done..|].
  rewrite Hs. apply in_bounds_snoc; [done | lia].
Qed.

(** On features in the ranges of the two sampling functions, the
    magnitudes of the products with [HIDDEN_PARAM] add up to at most 120:
    every partial sum of a reward, in any order, is an integer below
    [2^24]. *)
Lemma rewards_fit_float32 (g a : list Z) :
  length g = 4 → length a = 5 →
  Forall (λ z, (-10 ≤ z < 10)%Z) g → Forall (λ z, (-2 ≤ z < 3)%Z) a →
  (dot (Z.abs <$> (g ++ a)) (Z.abs <$> HIDDEN_PARAM) ≤ 120)%Z ∧
  (-120 ≤ dot (g ++ a) HIDDEN_PARAM ≤ 114)%Z.
Proof.
  intros Hg Ha Fg Fa.
  destruct g as [|g0 [|g1 [|g2 [|g3 [|??]]]]]; try done.
  destruct a as [|a0 [|a1 [|a2 [|a3 [|a4 [|??]]]]]]; try done.
  repeat match goal with
         | H : Forall _ (_ :: _) |- _ => apply Forall_cons in H as [? H]
         end.
  unfold dot, HIDDEN_PARAM. simpl. lia.
Qed.

Lemma HIDDEN_PARAM_small : Forall small HIDDEN_PARAM.
Proof. unfold HIDDEN_PARAM, small. repeat constructor; simpl; lia. Qed.

Lemma sampled_observation_exact d g A B K :
  valid_observation d g A B K 4 5 →
  sampled_observation g A →
  exact_rewards g A HIDDEN_PARAM B K 4 5.
Proof.
  intros [_ _ Hwg HwA Hsg HsA] [Hg HA]. split_and!.
  - eapply Forall_impl; [exact Hg|]. intros z Hz. simpl in Hz. unfold small. lia.
  - eapply Forall_impl; [exact HA|]. intros z Hz. simpl in Hz. unfold small. lia.
  - apply HIDDEN_PARAM_small.
  - intros b i Hb Hi.
    destruct (rewards_fit_float32 (vec g [b] 4) (vec A [b; i] 5)) as [Hsum _];
      try apply vec_length.
    + apply (vec_all_values _ g [B] 4 [b]); [done..|]. by apply in_bounds_1.
    + apply (vec_all_values _ A [B; K] 5 [b; i]); [done..|].
      by apply in_bounds_2.
    + lia.
Qed.

(** C9. The reward function of the environment and the callbacks of the
    two metrics are built from [HIDDEN_PARAM]; on an observation as the
    environment makes them (four global features in the range of
    [_global_context_sampling_fn], five per-arm features in the range of
    [_arm_context_sampling_fn]), on the features [g[b] ++ A[b][i]] of an
    arm, the mean of the reward that the environment draws is the reward
    that [_all_rewards] computes for that arm, which the callbacks
    maximise. *)
Theorem oracle_exact_for_environment FLAGS w r w' :
  main FLAGS w = (Ok r, w') →
  ∃ reward_fn optimal_reward_fn optimal_action_fn,
    environment r =
      TFPyEnvironment
        (StationaryStochasticPerArmPyEnvironment
           _global_context_sampling_fn _arm_context_sampling_fn
           NUM_ACTIONS reward_fn BATCH_SIZE) ∧
    additional_metrics r =
      [RegretMetric optimal_reward_fn; SuboptimalArmsMetric optimal_action_fn] ∧
    ∀ observation w0 d g A B K,
      heap w0 !! observation = Some d →
      valid_observation d g A B K 4 5 →
      sampled_observation g A →
      optimal_reward_fn observation w0 = optimal_reward observation HIDDEN_PARAM w0 ∧
      optimal_action_fn observation w0 = optimal_action observation HIDDEN_PARAM w0 ∧
      ∃ rewards,
        _all_rewards observation HIDDEN_PARAM w0 = (Ok rewards, w0) ∧
        ∀ b i, b < B → i < K →
          ∃ sample w1,
            reward_fn (vec g [b] 4 ++ vec A [b; i] 5) w0 = (Ok sample, w1) ∧
            tget rewards [b; i] = Some (normal_mean sample).
Proof.
  intros (network & transformation & _ & _ & ->)%main_inv. simpl.
  do 3 eexists. split_and!; [done..|].
  intros observation w0 d g A B K Hd Hv Hsam.
  split_and!; [done..|].
  pose proof (sampled_observation_exact d g A B K Hv Hsam) as Hex.
  destruct (_all_rewards_valid _ HIDDEN_PARAM _ _ _ _ _ _ _ _ Hd Hv eq_refl Hex)
    as (rewards & Hrun & _ & _ & Hent & _).
  exists rewards. split; [done|]. intros b i Hb Hi.
  destruct Hex as (_ & _ & Hh & Hsum).
  eexists _, _. split.
  - apply LinearNormalReward_call_run; [|done|by apply Hsum].
    change (length (vec g [b] 4 ++ vec A [b; i] 5) = length HIDDEN_PARAM).
    by rewrite length_app, !vec_length.
  - simpl. by apply Hent.
Qed.

(** ** The range of the rewards of the environment *)

(** X2. On an observation whose features lie in the ranges of the two
    sampling functions, every reward that [_all_rewards] computes with
    [HIDDEN_PARAM] lies between -120 and 114, and so does every entry of
    [optimal_reward] as soon as there is an arm. *)
Theorem environment_rewards_range observation w d g A B K :
  heap w !! observation = Some d →
  valid_observation d g A B K 4 5 →
  sampled_observation g A →
  ∃ rewards best,
    _all_rewards observation HIDDEN_PARAM w = (Ok rewards, w) ∧
    optimal_reward observation HIDDEN_PARAM w = (Ok best, w) ∧
    (∀ b i, b < B → i < K →
       ∃ v, tget rewards [b; i] = Some (Num v) ∧ (-120 ≤ v ≤ 114)%Z) ∧
    (K ≠ 0 → ∀ b, b < B →
       ∃ m, tget best [b] = Some (Num m) ∧ (-120 ≤ m ≤ 114)%Z).
Proof.
  intros Hd Hv Hsam.
  pose proof (sampled_observation_exact d g A B K Hv Hsam) as Hex.
  destruct (_all_rewards_valid _ HIDDEN_PARAM _ _ _ _ _ _ _ _ Hd Hv eq_refl Hex)
    as (rewards & Hrun & Hs & Hwf & Hent & Hord).
  destruct Hsam as [Hg HA]. destruct Hv as [_ _ Hwg HwA Hsg HsA].
  assert (∀ b i, b < B → i < K →
            ∃ v, tget rewards [b; i] = Some (Num v) ∧ (-120 ≤ v ≤ 114)%Z)
    as Hrange.
  { intros b i Hb Hi. eexists. split; [by apply Hent|].
    apply rewards_fit_float32; try apply vec_length.
    - apply (vec_all_values _ g [B] 4 [b]); [done..|]. by apply in_bounds_1.
    - apply (vec_all_values _ A [B; K] 5 [b; i]); [done..|].
      by apply in_bounds_2. }
  exists rewards. eexists. split; [done|]. split.
  { rewrite (optimal_reward_run _ _ _ _ _ Hrun).
    by rewrite (tf_reduce_max_matrix _ _ _ Hs). }
  split; [done|].
  intros HK b Hb.
  destruct (reduce_max_entry rewards B K b Hs Hwf Hb (ordinary_no_nan _ Hord))
    as (m & Hm & _ & Hatt & _).
  destruct (Hatt HK) as (i & Hi & Hv).
  destruct (Hrange b i Hb Hi) as (v' & Hv' & Hr).
  exists v'. split; [|done]. congruence.
Qed.

(** ** When the reward computation returns *)

Lemma tf_expand_dims_inv {A} (t r : Tensor A) axis :
  tf_expand_dims t axis = Ok r →
  axis ≤ length (shape t) ∧
  shape r = take axis (shape t) ++ 1 :: drop axis (shape t).
Proof. unfold tf_expand_dims. case_decide; [|done]. by intros [= <-]. Qed.

Lemma tf_tile_inv t ms r :
  tf_tile t ms = Ok r →
  length ms = length (shape t) ∧ shape r = zip_with Nat.mul (shape t) ms.
Proof. unfold tf_tile. case_decide; [|done]. by intros [= <-]. Qed.

Lemma tf_concat_inv a b r :
  tf_concat a b = Ok r →
  ∃ pre da db,
    shape a = pre ++ [da] ∧ shape b = pre ++ [db] ∧ shape r = pre ++ [da + db].
Proof.
  unfold tf_concat.
  destruct (reverse (shape a)) as [|da ra] eqn:Ea; [done|].
  destruct (reverse (shape b)) as [|db rb] eqn:Eb; [done|].
  case_decide as Heq; [|done]. subst rb. intros [= <-].
  exists (reverse ra), da, db. split_and!; [| |done].
  - by rewrite <- (reverse_involutive (shape a)), Ea, reverse_cons.
  - by rewrite <- (reverse_involutive (shape b)), Eb, reverse_cons.
Qed.

Lemma tf_matvec_inv a b r :
  tf_matvec a b = Ok r →
  ∃ d, shape a = shape r ++ [d] ∧ shape r ≠ [] ∧ shape b = [d].
Proof.
  unfold tf_matvec.
  destruct (reverse (shape a)) as [|d [|k rpre]] eqn:Ea; [done..|].
  destruct (shape b) as [|n [|??]]; [done| |done].
  case_decide as Heq; [|done]. subst n. intros [= <-].
  exists d. simpl. split_and!; [|by destruct (reverse (k :: rpre)) eqn:E;
    [apply (f_equal length) in E; rewrite length_reverse in E|]|done].
  by rewrite <- (reverse_involutive (shape a)), Ea, reverse_cons.
Qed.

(** X3. Given an observation that holds both feature tensors, the reward
    computation returns exactly when a tensor can hold the elements of the
    hidden parameter, the global features are a matrix, the per-arm
    features a rank-3 tensor with the same batch dimension, and the hidden
    parameter is as long as the two feature dimensions together; in every
    other case it raises. *)
Theorem all_rewards_returns_iff observation h w d g A :
  heap w !! observation = Some d →
  d !! GLOBAL_FEATURE_KEY = Some g →
  d !! PER_ARM_FEATURE_KEY = Some A →
  wf_tensor g → wf_tensor A →
  ((∃ rewards, _all_rewards observation h w = (Ok rewards, w)) ↔
   (Forall in_int64 h ∧
    ∃ B K Dg Da,
      valid_observation d g A B K Dg Da ∧ length h = Dg + Da)) ∧
  ((∃ e, _all_rewards observation h w = (Err e, w)) ↔
   ¬ (Forall in_int64 h ∧
      ∃ B K Dg Da,
        valid_observation d g A B K Dg Da ∧ length h = Dg + Da)).
Proof.
  intros Hd Hg HA Hwg HwA.
  assert ((∃ rewards, _all_rewards observation h w = (Ok rewards, w)) ↔
          (Forall in_int64 h ∧
           ∃ B K Dg Da,
             valid_observation d g A B K Dg Da ∧ length h = Dg + Da)) as Hiff.
  { split.
    - intros [rewards Hrun]. revert Hrun. unfold _all_rewards.
      destruct (tf_cast_float32 h) as [hp|e] eqn:Ecast;
        [rewrite lift_bind_ok | by rewrite lift_bind_err].
      apply tf_cast_float32_inv in Ecast as [Hcast Hshp].
      rewrite (bind_ok _ _ _ _ _ (getitem_ok _ _ _ _ _ Hd Hg)).
      rewrite (bind_ok _ _ _ _ _ (getitem_ok _ _ _ _ _ Hd HA)).
      destruct (tf_shape_getitem A 1) as [K|e] eqn:EK;
        [rewrite lift_bind_ok | by rewrite lift_bind_err].
      destruct (tf_expand_dims g 1) as [ex|e] eqn:Eex;
        [rewrite lift_bind_ok | by rewrite lift_bind_err].
      destruct (tf_tile ex [1; K; 1]) as [tiled|e] eqn:Et;
        [rewrite lift_bind_ok | by rewrite lift_bind_err].
      destruct (tf_concat tiled A) as [c|e] eqn:Ec;
        [rewrite lift_bind_ok | by rewrite lift_bind_err].
      destruct (tf_matvec c hp) as [r|e] eqn:Em;
        [intros _ | by rewrite lift_bind_err].
      apply tf_expand_dims_inv in Eex as [_ Hex].
      apply tf_tile_inv in Et as [Hlen Htiled].
      apply tf_concat_inv in Ec as (pre & da & db & Hta & HsA & Hc).
      apply tf_matvec_inv in Em as (n & Hcn & _ & Hn).
      rewrite Hex in Hlen, Htiled.
      destruct (shape g) as [|B [|Dg [|??]]] eqn:Hsg; simpl in Hlen; try lia.
      simpl in Htiled. rewrite Htiled in Hta.
      change [B * 1; K + 0; Dg * 1] with ([B * 1; K + 0] ++ [Dg * 1]) in Hta.
      apply app_inj_tail in Hta as [<- <-].
      rewrite Hc in Hcn. apply app_inj_tail in Hcn as [_ <-].
      rewrite Hshp in Hn. injection Hn as Hn.
      rewrite !Nat.mul_1_r, Nat.add_0_r in *.
      split; [done|].
      exists B, K, Dg, db. split; [|lia]. by constructor.
    - intros (Hcast & B & K & Dg & Da & Hv & Hh).
      destruct (_all_rewards_returns _ _ _ _ _ _ _ _ _ _ Hd Hv Hh Hcast)
        as (rewards & Hrun & _). eauto. }
  split; [done|]. rewrite <- Hiff.
  rewrite (_all_rewards_run observation h w).
  destruct (_all_rewards observation h w).1 as [r|e].
  - split; [by intros [? [=]] | intros Hn; destruct Hn; eauto].
  - split; [by intros _ [? [=]] | eauto].
Qed.

(** X4. When the global and the per-arm features disagree on the batch
    size, the reward computation and both oracles end with the error of
    [tf.concat], for a hidden parameter that a tensor can hold. *)
Theorem batch_mismatch_raises observation h w d g A Bg Ba K Dg Da :
  heap w !! observation = Some d →
  d !! GLOBAL_FEATURE_KEY = Some g →
  d !! PER_ARM_FEATURE_KEY = Some A →
  shape g = [Bg; Dg] → shape A = [Ba; K; Da] → Bg ≠ Ba →
  Forall in_int64 h →
  _all_rewards observation h w = (Err (InvalidArgumentError "ConcatV2"), w) ∧
  optimal_reward observation h w = (Err (InvalidArgumentError "ConcatV2"), w) ∧
  optimal_action observation h w = (Err (InvalidArgumentError "ConcatV2"), w).
Proof.
  intros Hd Hg HA Hsg HsA Hne Hcast.
  assert (_all_rewards observation h w
          = (Err (InvalidArgumentError "ConcatV2"), w)) as Hrun.
  { apply (_all_rewards_operator_error _ _ _ d g A); [done..|].
    unfold first_operator_error.
    destruct (tf_cast_float32_returns h Hcast) as (hp & -> & _).
    rewrite (tf_shape_getitem_rank3 _ _ _ _ HsA).
    rewrite (tf_expand_dims_rank2 _ _ _ Hsg).
    rewrite (tf_tile_rank3 _ Bg Dg K) by done.
    unfold tf_concat. rewrite HsA. simpl.
    case_decide as Heq; [|done]. by injection Heq. }
  split; [done|]. by apply oracles_propagate.
Qed.

(** ** What the oracles read of an observation *)

Lemma getitem_same_entry obj1 obj2 key w1 w2 d1 d2 :
  heap w1 !! obj1 = Some d1 → heap w2 !! obj2 = Some d2 →
  d1 !! key = d2 !! key →
  (getitem obj1 key w1).1 = (getitem obj2 key w2).1.
Proof.
  intros H1 H2 Hk. unfold getitem. rewrite H1, H2, Hk.
  by destruct (d2 !! key).
Qed.

Lemma _all_rewards_same_features obs1 obs2 h w1 w2 d1 d2 :
  heap w1 !! obs1 = Some d1 → heap w2 !! obs2 = Some d2 →
  d1 !! GLOBAL_FEATURE_KEY = d2 !! GLOBAL_FEATURE_KEY →
  d1 !! PER_ARM_FEATURE_KEY = d2 !! PER_ARM_FEATURE_KEY →
  (_all_rewards obs1 h w1).1 = (_all_rewards obs2 h w2).1.
Proof.
  intros H1 H2 HG HP. unfold _all_rewards, mbind, Py_bind.
  unfold lift at 1 7.
  destruct (tf_cast_float32 h) as [hp|e]; [|done].
  rewrite (getitem_run obs1 GLOBAL_FEATURE_KEY w1),
    (getitem_run obs2 GLOBAL_FEATURE_KEY w2).
  rewrite (getitem_same_entry _ _ _ _ _ _ _ H1 H2 HG).
  destruct (getitem obs2 GLOBAL_FEATURE_KEY w2).1 as [g|e]; [|done].
  rewrite (getitem_run obs1 PER_ARM_FEATURE_KEY w1),
    (getitem_run obs2 PER_ARM_FEATURE_KEY w2).
  rewrite (getitem_same_entry _ _ _ _ _ _ _ H1 H2 HP).
  destruct (getitem obs2 PER_ARM_FEATURE_KEY w2).1 as [A|e]; [|done].
  unfold lift, mret, Py_ret. by repeat case_match.
Qed.

(** X5. The oracles read two entries of the observation and nothing else:
    on two dictionaries that agree on the global and on the per-arm
    features, whatever other keys they hold and wherever they live, each
    oracle gives the same result; in particular adding or changing any
    other key of an observation changes nothing. *)
Theorem oracles_read_two_keys obs1 obs2 h w1 w2 d1 d2 :
  heap w1 !! obs1 = Some d1 → heap w2 !! obs2 = Some d2 →
  d1 !! GLOBAL_FEATURE_KEY = d2 !! GLOBAL_FEATURE_KEY →
  d1 !! PER_ARM_FEATURE_KEY = d2 !! PER_ARM_FEATURE_KEY →
  (optimal_reward obs1 h w1).1 = (optimal_reward obs2 h w2).1 ∧
  (optimal_action obs1 h w1).1 = (optimal_action obs2 h w2).1 ∧
  (∀ key v,
     key ≠ GLOBAL_FEATURE_KEY → key ≠ PER_ARM_FEATURE_KEY →
     (optimal_reward obs1 h (mkWorld (<[obs1 := <[key := v]> d1]> (heap w1)) (rng w1))).1
       = (optimal_reward obs1 h w1).1 ∧
     (optimal_action obs1 h (mkWorld (<[obs1 := <[key := v]> d1]> (heap w1)) (rng w1))).1
       = (optimal_action obs1 h w1).1).
Proof.
  intros H1 H2 HG HP.
  assert (∀ o o' w w' d d',
            heap w !! o = Some d → heap w' !! o' = Some d' →
            d !! GLOBAL_FEATURE_KEY = d' !! GLOBAL_FEATURE_KEY →
            d !! PER_ARM_FEATURE_KEY = d' !! PER_ARM_FEATURE_KEY →
            (optimal_reward o h w).1 = (optimal_reward o' h w').1 ∧
            (optimal_action o h w).1 = (optimal_action o' h w').1) as Hsame.
  { intros o o' w w' d d' Ho Ho' Hg Hp.
    pose proof (_all_rewards_same_features o o' h w w' d d' Ho Ho' Hg Hp) as Hr.
    unfold optimal_reward, optimal_action, mbind, Py_bind.
    rewrite (_all_rewards_run o h w), (_all_rewards_run o' h w'), Hr.
    by destruct (_all_rewards o' h w').1. }
  destruct (Hsame _ _ _ _ _ _ H1 H2 HG HP) as [Hr Ha].
  split; [done|]. split; [done|].
  intros key v HnG HnP.
  apply (Hsame obs1 obs1 _ w1 (<[key := v]> d1) d1); [|done| |].
  - simpl. by rewrite lookup_insert_eq.
  - by rewrite lookup_insert_ne.
  - by rewrite lookup_insert_ne.
Qed.

(** ** The rewards as a function of the hidden parameter *)

Lemma dot_add_param (x h1 h2 : list Z) :
  length h1 = length h2 →
  dot x (add_param h1 h2) = (dot x h1 + dot x h2)%Z.
Proof.
  unfold dot, add_param. revert h1 h2.
  induction x as [|a x IH]; intros [|b h1] [|c h2] Hlen; simpl in *; try done.
  rewrite IH by lia. lia.
Qed.

Lemma dot_scale_param (x h : list Z) c :
  dot x (scale_param c h) = (c * dot x h)%Z.
Proof.
  unfold dot, scale_param. revert h.
  induction x as [|a x IH]; intros [|b h]; simpl; try lia.
  rewrite IH. lia.
Qed.

(** X6. Where nothing is rounded, the rewards are linear in the hidden
    parameter: on a valid observation, when the computations with two
    hidden parameters, with their sum and with a multiple of the first are
    all exact, the reward of every arm for the sum is the sum of its
    rewards for each, and its reward for the multiple is that multiple of
    its reward. *)
Theorem all_rewards_linear_in_param observation h1 h2 c w d g A B K Dg Da :
  heap w !! observation = Some d →
  valid_observation d g A B K Dg Da →
  length h1 = Dg + Da → length h2 = Dg + Da →
  exact_rewards g A h1 B K Dg Da →
  exact_rewards g A h2 B K Dg Da →
  exact_rewards g A (add_param h1 h2) B K Dg Da →
  exact_rewards g A (scale_param c h1) B K Dg Da →
  ∃ r1 r2 rsum rscaled,
    _all_rewards observation h1 w = (Ok r1, w) ∧
    _all_rewards observation h2 w = (Ok r2, w) ∧
    _all_rewards observation (add_param h1 h2) w = (Ok rsum, w) ∧
    _all_rewards observation (scale_param c h1) w = (Ok rscaled, w) ∧
    ∀ b i, b < B → i < K →
      ∃ v1 v2,
        tget r1 [b; i] = Some (Num v1) ∧ tget r2 [b; i] = Some (Num v2) ∧
        tget rsum [b; i] = Some (Num (v1 + v2)) ∧
        tget rscaled [b; i] = Some (Num (c * v1)).
Proof.
  intros Hd Hv Hh1 Hh2 Hex1 Hex2 Hex3 Hex4.
  destruct (_all_rewards_valid _ h1 _ _ _ _ _ _ _ _ Hd Hv Hh1 Hex1)
    as (r1 & Hrun1 & _ & _ & Hent1 & _).
  destruct (_all_rewards_valid _ h2 _ _ _ _ _ _ _ _ Hd Hv Hh2 Hex2)
    as (r2 & Hrun2 & _ & _ & Hent2 & _).
  destruct (_all_rewards_valid _ (add_param h1 h2) _ _ _ _ _ _ _ _ Hd Hv)
    as (rsum & Hrun3 & _ & _ & Hent3 & _); [|done|].
  { unfold add_param. rewrite length_zip_with. lia. }
  destruct (_all_rewards_valid _ (scale_param c h1) _ _ _ _ _ _ _ _ Hd Hv)
    as (rscaled & Hrun4 & _ & _ & Hent4 & _); [|done|].
  { unfold scale_param. by rewrite length_fmap. }
  exists r1, r2, rsum, rscaled. split_and!; [done..|].
  intros b i Hb Hi. eexists _, _.
  split; [by apply Hent1|]. split; [by apply Hent2|]. split.
  - rewrite Hent3 by done. do 2 f_equal. apply dot_add_param. lia.
  - rewrite Hent4 by done. do 2 f_equal. apply dot_scale_param.
Qed.

(** ** Ties and the first arm *)

(** X7. [optimal_action] names the first arm for a batch element exactly
    when no arm has a larger reward than the first: an arm further on is
    named only if its reward is strictly larger than that of every arm
    before it.  This is for rewards that are ordinary numbers, as they are
    where nothing is rounded. *)
Theorem optimal_action_zero_iff observation h w d g A B K Dg Da :
  heap w !! observation = Some d →
  valid_observation d g A B K Dg Da →
  length h = Dg + Da →
  Forall in_int64 h →
  K ≠ 0 → (Z.of_nat K ≤ 2 ^ 31)%Z →
  ∃ rewards acts,
    _all_rewards observation h w = (Ok rewards, w) ∧
    optimal_action observation h w = (Ok acts, w) ∧
    (ordinary_rewards rewards →
     ∀ b, b < B →
       ∃ r0, tget rewards [b; 0] = Some r0 ∧
         (tget acts [b] = Some 0%Z ↔
          ∀ i v, i < K → tget rewards [b; i] = Some v → ext_le v r0)) ∧
    (exact_rewards g A h B K Dg Da → ordinary_rewards rewards).
Proof.
  intros Hd Hv Hh Hcast HK H31.
  destruct (_all_rewards_returns _ _ _ _ _ _ _ _ _ _ Hd Hv Hh Hcast)
    as (rewards & Hrun & Hs & Hwf & _).
  exists rewards. eexists. split; [done|]. split.
  { rewrite (optimal_action_run _ _ _ _ _ Hrun).
    by rewrite (tf_argmax_matrix _ _ _ Hs HK). }
  split.
  - intros Hord b Hb.
    destruct (argmax_entry rewards B K b Hs Hwf Hb HK H31 Hord)
      as (j & m & Hact & Hj & Hmax & Hrew).
    destruct (is_first_max_arm_rewards _ _ _ _ _ _ Hs Hwf Hb Hord Hmax)
      as [Hup Hlow].
    assert (in_bounds (shape rewards) [b; 0]) as Hb0.
    { rewrite Hs. apply in_bounds_2; lia. }
    pose proof (tget_at_float rewards [b; 0] Hwf Hb0) as H0.
    exists (at_float rewards [b; 0]). split; [done|].
    rewrite Hact. split.
    + intros [= Hz]. assert (j = 0) as -> by lia.
      intros i v Hi Hiv. rewrite H0 in Hrew. injection Hrew as ->.
      by eapply Hup.
    + intros Hfirst. destruct j as [|j]; [done|]. exfalso.
      pose proof (Hlow 0 _ ltac:(lia) H0) as Hlt.
      pose proof (Hfirst (S j) (Num m) Hj Hrew) as Hle.
      destruct (at_float rewards [b; 0]); simpl in *; try done.
      apply Z.ltb_lt in Hlt. lia.
  - intros Hex.
    destruct (_all_rewards_valid _ _ _ _ _ _ _ _ _ _ Hd Hv Hh Hex)
      as (rewards' & Hrun' & _ & _ & _ & Hord).
    rewrite Hrun in Hrun'. by injection Hrun' as ->.
Qed.

(** ** An observation without arms *)

(** X8. On an observation that is valid but for having no arm, with a
    hidden parameter as long as the features of an arm, whose elements a
    tensor can hold, [_all_rewards] returns an empty matrix,
    [optimal_action] ends with the error of [tf.argmax] on an empty axis,
    and [optimal_reward] returns for every batch element the identity of
    the maximum. *)
Theorem oracles_on_no_arm observation h w d g A B Dg Da :
  heap w !! observation = Some d →
  valid_observation d g A B 0 Dg Da →
  length h = Dg + Da →
  Forall in_int64 h →
  (∃ rewards, _all_rewards observation h w = (Ok rewards, w) ∧
              shape rewards = [B; 0] ∧ values rewards = []) ∧
  optimal_action observation h w = (Err (InvalidArgumentError "ArgMax"), w) ∧
  ∃ best, optimal_reward observation h w = (Ok best, w) ∧
          shape best = [B] ∧
          ∀ b, b < B → tget best [b] = Some Lowest.
Proof.
  intros Hd Hv Hh Hcast.
  destruct (_all_rewards_returns _ _ _ _ _ _ _ _ _ _ Hd Hv Hh Hcast)
    as (rewards & Hrun & Hs & Hwf & _).
  split_and!.
  - exists rewards. split_and!; [done..|].
    unfold wf_tensor in Hwf. rewrite Hs in Hwf. simpl in Hwf.
    apply nil_length_inv. lia.
  - rewrite (optimal_action_run _ _ _ _ _ Hrun).
    by rewrite (tf_argmax_no_arm _ _ Hs).
  - eexists. split.
    { rewrite (optimal_reward_run _ _ _ _ _ Hrun).
      by rewrite (tf_reduce_max_matrix _ _ _ Hs). }
    split; [done|]. intros b Hb.
    by rewrite tget_tinit by by apply in_bounds_1.
Qed.

(** ** The transformation on its own result and before the oracles *)

Lemma drop_arm_feature_fn_inv traj w traj' w1 :
  drop_arm_feature_fn traj w = (Ok traj', w1) →
  ∃ d, heap w !! observation traj = Some d ∧
       is_Some (d !! PER_ARM_FEATURE_KEY) ∧
       observation traj' = fresh (dom (heap w)) ∧
       heap w1 = <[fresh (dom (heap w)) := delete PER_ARM_FEATURE_KEY d]> (heap w).
Proof.
  unfold drop_arm_feature_fn, mbind, Py_bind, copy_deepcopy, delitem.
  destruct (heap w !! observation traj) as [d|] eqn:Hd; [|done]. simpl.
  rewrite lookup_insert_eq.
  destruct (d !! PER_ARM_FEATURE_KEY) as [v|] eqn:Hv; [|done]. simpl.
  intros [= <- <-]. exists d. simpl. rewrite insert_insert_eq. eauto.
Qed.

Lemma drop_arm_feature_fn_missing_run traj w d :
  heap w !! observation traj = Some d →
  d !! PER_ARM_FEATURE_KEY = None →
  drop_arm_feature_fn traj w =
    (Err (KeyError PER_ARM_FEATURE_KEY),
     mkWorld (<[fresh (dom (heap w)) := d]> (heap w)) (rng w)).
Proof.
  intros Hd Hv.
  unfold drop_arm_feature_fn, mbind, Py_bind, copy_deepcopy, delitem.
  rewrite Hd. simpl. by rewrite lookup_insert_eq, Hv.
Qed.

(** X9. On a trajectory whose observation has no per-arm features the
    transformation ends with the [KeyError] of [del], and every dictionary
    that existed is as it was (the copy it had made stays behind); so the
    transformation, applied to a trajectory it has returned, raises. *)
Theorem drop_arm_feature_fn_not_twice :
  (∀ traj w d,
     heap w !! observation traj = Some d →
     d !! PER_ARM_FEATURE_KEY = None →
     ∃ w1, drop_arm_feature_fn traj w = (Err (KeyError PER_ARM_FEATURE_KEY), w1) ∧
           rng w1 = rng w ∧
           ∀ l dl, heap w !! l = Some dl → heap w1 !! l = Some dl) ∧
  (∀ traj w traj' w1,
     drop_arm_feature_fn traj w = (Ok traj', w1) →
     ∃ w2, drop_arm_feature_fn traj' w1 = (Err (KeyError PER_ARM_FEATURE_KEY), w2) ∧
           ∀ l dl, heap w1 !! l = Some dl → heap w2 !! l = Some dl).
Proof.
  assert (∀ traj w d,
     heap w !! observation traj = Some d →
     d !! PER_ARM_FEATURE_KEY = None →
     ∃ w1, drop_arm_feature_fn traj w = (Err (KeyError PER_ARM_FEATURE_KEY), w1) ∧
           rng w1 = rng w ∧
           ∀ l dl, heap w !! l = Some dl → heap w1 !! l = Some dl) as Hmissing.
  { intros traj w d Hd Hv. eexists.
    split; [by apply drop_arm_feature_fn_missing_run|]. simpl.
    split; [done|]. intros l dl Hl. rewrite lookup_insert_ne; [done|].
    intros Heq. by apply (fresh_reference_unused w l dl). }
  split; [done|].
  intros traj w traj' w1 (d & Hd & _ & Hobs & Hheap)%drop_arm_feature_fn_inv.
  destruct (Hmissing traj' w1 (delete PER_ARM_FEATURE_KEY d))
    as (w2 & Hrun & _ & Hkeep).
  - by rewrite Hheap, Hobs, lookup_insert_eq.
  - by rewrite lookup_delete_eq.
  - eauto.
Qed.

(** X10. After the transformation the oracles no longer apply to the
    observation of the trajectory it returns: with the global features in
    place and a hidden parameter that a tensor can hold they end with the
    [KeyError] of the per-arm key; on the observation of the given
    trajectory they give what they gave before. *)
Theorem oracles_after_drop traj w traj' w1 h d :
  GLOBAL_FEATURE_KEY ≠ PER_ARM_FEATURE_KEY →
  heap w !! observation traj = Some d →
  is_Some (d !! GLOBAL_FEATURE_KEY) →
  Forall in_int64 h →
  drop_arm_feature_fn traj w = (Ok traj', w1) →
  optimal_reward (observation traj') h w1
    = (Err (KeyError PER_ARM_FEATURE_KEY), w1) ∧
  optimal_action (observation traj') h w1
    = (Err (KeyError PER_ARM_FEATURE_KEY), w1) ∧
  (optimal_reward (observation traj) h w1).1
    = (optimal_reward (observation traj) h w).1 ∧
  (optimal_action (observation traj) h w1).1
    = (optimal_action (observation traj) h w).1.
Proof.
  intros Hne Hd Hg Hcast (d0 & Hd0 & _ & Hobs & Hheap)%drop_arm_feature_fn_inv.
  assert (d0 = d) as -> by congruence.
  assert (heap w1 !! observation traj' = Some (delete PER_ARM_FEATURE_KEY d))
    as Hd'.
  { by rewrite Hheap, Hobs, lookup_insert_eq. }
  assert (_all_rewards (observation traj') h w1
          = (Err (KeyError PER_ARM_FEATURE_KEY), w1)) as Hrun.
  { apply (_all_rewards_missing_key _ h w1 _ Hd' Hcast).
    - by rewrite lookup_delete_ne.
    - by rewrite lookup_delete_eq. }
  destruct (oracles_propagate _ _ _ _ _ Hrun) as [Hr Ha].
  split; [done|]. split; [done|].
  assert (heap w1 !! observation traj = heap w !! observation traj) as Hsame.
  { rewrite Hheap, lookup_insert_ne; [done|].
    intros Heq. by apply (fresh_reference_unused w _ d Hd). }
  pose proof (_all_rewards_reads (observation traj) h w1 w Hsame) as Hreads.
  unfold optimal_reward, optimal_action, mbind, Py_bind.
  rewrite (_all_rewards_run (observation traj) h w1),
    (_all_rewards_run (observation traj) h w), Hreads.
  by destruct (_all_rewards (observation traj) h w).1.
Qed.

(** ** What [main] assembles, whatever the flags *)

(** X12. When [main] reaches the trainer, the agent it hands over was
    built for the environment it hands over: the time step and action
    specifications of the agent and the observation specification of its
    reward network are those of that environment, the agent accepts
    per-arm features, it has the same transformation as the trainer, and
    the environment has [NUM_ACTIONS] arms and [BATCH_SIZE] batch
    elements. *)
Theorem agent_built_for_trained_environment FLAGS w r w' :
  main FLAGS w = (Ok r, w') →
  agent_time_step_spec (agent r) = time_step_spec (environment r) ∧
  agent_action_spec (agent r) = action_spec (environment r) ∧
  network_obs_spec (reward_network (agent r))
    = observation_spec (environment r) ∧
  accepts_per_arm_features (agent r) = true ∧
  agent_training_data_spec_transformation_fn (agent r)
    = training_data_spec_transformation_fn r ∧
  ∃ sample_global sample_arm reward_fn,
    environment r =
      TFPyEnvironment
        (StationaryStochasticPerArmPyEnvironment sample_global sample_arm
           7 reward_fn 16).
Proof.
  intros (network & transformation & Hnet & _ & ->)%main_inv. simpl.
  split_and!; try done.
  - by destruct Hnet as [[_ ->]|[_ ->]].
  - by eexists _, _, _.
Qed.

Lemma first_raise_never (calls : list LibCall) w :
  (∀ c w0, (framework c w0).1 = None) →
  (first_raise calls w).1 = None.
Proof.
  intros Hquiet. revert w. induction calls as [|c calls IH]; intros w; [done|].
  simpl. pose proof (Hquiet c w) as Hc.
  destruct (framework c w) as [[e|] w1]; [done|]. apply IH.
Qed.

(** X14. Flags that the flag definitions have accepted always leave the
    network bound: when no library call raises, [main] reaches the trainer
    on the flags of any command line that [parse_flags] accepts, and the
    trainer gets the directory of the command line, or else the one of the
    environment variable. *)
Theorem parsed_flags_reach_trainer cl FLAGS w :
  parse_flags cl = Ok FLAGS →
  (∀ c w0, (framework c w0).1 = None) →
  ∃ r w',
    main FLAGS w = (Ok r, w') ∧
    root_dir r =
      match arg_root_dir cl with
      | Some dir => Some dir
      | None => environ !! "TEST_UNDECLARED_OUTPUTS_DIR"
      end.
Proof.
  intros Hparse Hquiet.
  assert (FLAGS_network FLAGS ∈ network_enum_values ∧
          FLAGS_root_dir FLAGS =
            match arg_root_dir cl with
            | Some dir => Some dir
            | None => environ !! "TEST_UNDECLARED_OUTPUTS_DIR"
            end) as [Hnet Hdir].
  { revert Hparse. unfold parse_flags, parse_enum.
    destruct (arg_network cl) as [v|].
    - case_decide; [|done]. by intros [= <-].
    - intros [= <-]. simpl. split; [left | done]. }
  pose proof (main_first_raise FLAGS w Hnet) as Hmain.
  pose proof (first_raise_never (main_library_calls FLAGS) w Hquiet) as Hnone.
  destruct (first_raise (main_library_calls FLAGS) w) as [[e|] w']; [done|].
  destruct Hmain as [r Hr]. exists r, w'. split; [done|].
  apply main_inv in Hr as (? & ? & _ & _ & ->). done.
Qed.

(** ** What an entry of the oracles depends on *)

Lemma arm_rewards_formula (rewards : Tensor ExtZ) (g A : Tensor Z) h
    B K Dg Da b :
  (∀ b i, b < B → i < K →
     tget rewards [b; i] =
       Some (Num (dot (vec g [b] Dg ++ vec A [b; i] Da) h))) →
  b < B →
  arm_rewards rewards b K =
    (λ i, dot (vec g [b] Dg ++ vec A [b; i] Da) h) <$> seq 0 K.
Proof.
  intros Hent Hb. unfold arm_rewards. apply list_fmap_ext.
  intros k i Hi. apply lookup_seq in Hi as [-> Hk]. simpl in *.
  unfold at_float. by rewrite Hent.
Qed.

Lemma reduce_max_entry_value (rewards : Tensor ExtZ) B K b :
  b < B →
  tget (tinit [B] (λ idx, reduce_max_float (fiber rewards 1 K idx))) [b]
    = Some (reduce_max_float (fiber rewards 1 K [b])).
Proof. intros Hb. by rewrite tget_tinit by by apply in_bounds_1. Qed.

Lemma argmax_entry_value (rewards : Tensor ExtZ) B K b :
  b < B →
  tget (tinit [B] (λ idx, int32 (Z.of_nat (argmax_float (fiber rewards 1 K idx)))))
    [b] = Some (int32 (Z.of_nat (argmax_float (fiber rewards 1 K [b])))).
Proof. intros Hb. by rewrite tget_tinit by by apply in_bounds_1. Qed.

(** X15. Where nothing is rounded, an entry of an oracle depends on the
    features of its own batch element only: when batch element [b1] of one
    valid observation and batch element [b2] of another have the same
    global features and the same features for every arm, [optimal_reward]
    gives both the same entry, and so does [optimal_action]. *)
Theorem oracles_per_batch_element obs1 obs2 h w1 w2 d1 d2 g1 g2 A1 A2
    B1 B2 K Dg Da b1 b2 :
  heap w1 !! obs1 = Some d1 → heap w2 !! obs2 = Some d2 →
  valid_observation d1 g1 A1 B1 K Dg Da →
  valid_observation d2 g2 A2 B2 K Dg Da →
  length h = Dg + Da →
  exact_rewards g1 A1 h B1 K Dg Da →
  exact_rewards g2 A2 h B2 K Dg Da →
  b1 < B1 → b2 < B2 →
  vec g1 [b1] Dg = vec g2 [b2] Dg →
  (∀ i, i < K → vec A1 [b1; i] Da = vec A2 [b2; i] Da) →
  (∃ best1 best2,
     optimal_reward obs1 h w1 = (Ok best1, w1) ∧
     optimal_reward obs2 h w2 = (Ok best2, w2) ∧
     tget best1 [b1] = tget best2 [b2]) ∧
  (K ≠ 0 →
   ∃ acts1 acts2,
     optimal_action obs1 h w1 = (Ok acts1, w1) ∧
     optimal_action obs2 h w2 = (Ok acts2, w2) ∧
     tget acts1 [b1] = tget acts2 [b2]).
Proof.
  intros Hd1 Hd2 Hv1 Hv2 Hh Hex1 Hex2 Hb1 Hb2 Hg HA.
  destruct (_all_rewards_valid _ _ _ _ _ _ _ _ _ _ Hd1 Hv1 Hh Hex1)
    as (r1 & Hrun1 & Hs1 & Hwf1 & Hent1 & _).
  destruct (_all_rewards_valid _ _ _ _ _ _ _ _ _ _ Hd2 Hv2 Hh Hex2)
    as (r2 & Hrun2 & Hs2 & Hwf2 & Hent2 & _).
  assert (fiber r1 1 K [b1] = fiber r2 1 K [b2]) as Hrows.
  { apply list_eq. intros i.
    rewrite (fiber_lookup _ B1), (fiber_lookup _ B2) by done.
    case_decide; [|done].
    by rewrite Hent1, Hent2, Hg, HA. }
  split.
  - eexists _, _.
    rewrite (optimal_reward_run _ _ _ _ _ Hrun1), (tf_reduce_max_matrix _ _ _ Hs1).
    rewrite (optimal_reward_run _ _ _ _ _ Hrun2), (tf_reduce_max_matrix _ _ _ Hs2).
    split; [done|]. split; [done|].
    by rewrite !reduce_max_entry_value, Hrows.
  - intros HK. eexists _, _.
    rewrite (optimal_action_run _ _ _ _ _ Hrun1), (tf_argmax_matrix _ _ _ Hs1 HK).
    rewrite (optimal_action_run _ _ _ _ _ Hrun2), (tf_argmax_matrix _ _ _ Hs2 HK).
    split; [done|]. split; [done|].
    by rewrite !argmax_entry_value, Hrows.
Qed.

(** ** The optimal action and the global features *)

Lemma dot_app (x y h : list Z) :
  dot (x ++ y) h = (dot x h + dot y (drop (length x) h))%Z.
Proof.
  unfold dot. revert h. induction x as [|a x IH]; intros h; simpl.
  - by rewrite drop_0.
  - destruct h as [|c h]; simpl.
    + by destruct y.
    + rewrite IH. lia.
Qed.

Lemma is_first_max_shift (l : list Z) j m c :
  is_first_max l j m → is_first_max (Z.add c <$> l) j (c + m).
Proof.
  intros (Hj & Hup & Hlow). split_and!.
  - by rewrite list_lookup_fmap, Hj.
  - intros k x Hk. rewrite list_lookup_fmap in Hk.
    destruct (l !! k) as [y|] eqn:Hy; [|done]. injection Hk as <-.
    specialize (Hup k y Hy). lia.
  - intros k x Hlt Hk. rewrite list_lookup_fmap in Hk.
    destruct (l !! k) as [y|] eqn:Hy; [|done]. injection Hk as <-.
    specialize (Hlow k y Hlt Hy). lia.
Qed.

Lemma argmax_list_shift (l : list Z) c :
  argmax_list (Z.add c <$> l) = argmax_list l.
Proof.
  destruct l as [|x l]; [done|].
  destruct (argmax_list_spec (x :: l)) as [m Hm]; [done|].
  destruct (argmax_list_spec (Z.add c <$> x :: l)) as [m' Hm']; [done|].
  apply (is_first_max_shift _ _ _ c) in Hm.
  by destruct (is_first_max_unique _ _ _ _ _ Hm' Hm).
Qed.

(** X16. Where nothing is rounded, the optimal action does not depend on
    the global features: the reward of an arm is the contribution of the
    global features, the same for every arm of a batch element, plus the
    contribution of its own features, so two valid observations with the
    same per-arm features get the same optimal action for every batch
    element, whatever their global features. *)
Theorem optimal_action_ignores_global obs1 obs2 h w1 w2 d1 d2 g1 g2 A
    B K Dg Da :
  heap w1 !! obs1 = Some d1 → heap w2 !! obs2 = Some d2 →
  valid_observation d1 g1 A B K Dg Da →
  valid_observation d2 g2 A B K Dg Da →
  length h = Dg + Da →
  exact_rewards g1 A h B K Dg Da →
  exact_rewards g2 A h B K Dg Da →
  K ≠ 0 →
  ∃ acts1 acts2,
    optimal_action obs1 h w1 = (Ok acts1, w1) ∧
    optimal_action obs2 h w2 = (Ok acts2, w2) ∧
    ∀ b, b < B → tget acts1 [b] = tget acts2 [b].
Proof.
  intros Hd1 Hd2 Hv1 Hv2 Hh Hex1 Hex2 HK.
  destruct (_all_rewards_valid _ _ _ _ _ _ _ _ _ _ Hd1 Hv1 Hh Hex1)
    as (r1 & Hrun1 & Hs1 & Hwf1 & Hent1 & Hord1).
  destruct (_all_rewards_valid _ _ _ _ _ _ _ _ _ _ Hd2 Hv2 Hh Hex2)
    as (r2 & Hrun2 & Hs2 & Hwf2 & Hent2 & Hord2).
  eexists _, _.
  rewrite (optimal_action_run _ _ _ _ _ Hrun1), (tf_argmax_matrix _ _ _ Hs1 HK).
  rewrite (optimal_action_run _ _ _ _ _ Hrun2), (tf_argmax_matrix _ _ _ Hs2 HK).
  split; [done|]. split; [done|]. intros b Hb.
  rewrite !argmax_entry_value by done. do 3 f_equal.
  destruct (fiber_ordinary r1 B K b Hs1 Hwf1 Hb Hord1) as [-> Hlow1].
  destruct (fiber_ordinary r2 B K b Hs2 Hwf2 Hb Hord2) as [-> Hlow2].
  rewrite !argmax_float_Num by done.
  assert (∀ (r : Tensor ExtZ) (g : Tensor Z),
            (∀ b i, b < B → i < K →
               tget r [b; i] =
                 Some (Num (dot (vec g [b] Dg ++ vec A [b; i] Da) h))) →
            arm_rewards r b K =
              Z.add (dot (vec g [b] Dg) h) <$>
                ((λ i, dot (vec A [b; i] Da) (drop Dg h)) <$> seq 0 K)) as Hsplit.
  { intros r g Hent.
    rewrite (arm_rewards_formula r g A h B K Dg Da) by done.
    rewrite <- list_fmap_compose. apply list_fmap_ext. intros k i _. simpl.
    by rewrite dot_app, vec_length. }
  by rewrite (Hsplit r1 g1 Hent1), (Hsplit r2 g2 Hent2), !argmax_list_shift.
Qed.

(** ** The hidden parameter is converted first *)

(** X17. A hidden parameter with an element that no tensor can hold ends
    the reward computation and both oracles with the [ValueError] of the
    conversion, whatever the observation is, even one that lacks the
    features. *)
Theorem hidden_param_checked_first observation h w :
  ¬ Forall in_int64 h →
  _all_rewards observation h w = (Err (ValueError "convert_to_tensor"), w) ∧
  optimal_reward observation h w = (Err (ValueError "convert_to_tensor"), w) ∧
  optimal_action observation h w = (Err (ValueError "convert_to_tensor"), w).
Proof.
  intros Hh. pose proof (_all_rewards_cast_error observation h w Hh) as Hrun.
  split; [done|]. by apply oracles_propagate.
Qed.

End Script.

(** ** The theorems at sample inputs *)

(** A reward computation on given tensors is exact: the elements are
    compared one by one, the sums arm by arm. *)
Ltac exact_by_cases :=
  unfold exact_rewards; split_and!;
  [ repeat constructor; vm_compute; reflexivity ..
  | let b := fresh "b" in
    let i := fresh "i" in
    intros b i ? ?;
    do 3 (try destruct b as [|b]); do 4 (try destruct i as [|i]);
    try lia; vm_compute; reflexivity ].

Ltac castable_by_cases :=
  repeat constructor; unfold in_int64; lia.

Lemma sample_observation_valid :
  valid_observation "global" "per_arm" sample_observation
    sample_global sample_per_arm 2 3 2 1.
Proof. constructor; reflexivity. Defined.

Lemma sample_rewards_exact :
  exact_rewards sample_global sample_per_arm sample_hidden_param 2 3 2 1.
Proof. exact_by_cases. Defined.

Lemma sample_hidden_param_castable : Forall in_int64 sample_hidden_param.
Proof. castable_by_cases. Defined.

Lemma all_rewards_is_linear_witness :
  heap sample_world !! 0 = Some sample_observation ∧
  exact_rewards sample_global sample_per_arm sample_hidden_param 2 3 2 1 ∧
  ∃ rewards,
    _all_rewards "global" "per_arm" 0 sample_hidden_param sample_world
      = (Ok rewards, sample_world) ∧
    shape rewards = [2; 3] ∧
    ∀ b i, b < 2 → i < 3 →
      tget rewards [b; i] =
        Some (Num (dot (vec sample_global [b] 2 ++ vec sample_per_arm [b; i] 1)
                     sample_hidden_param)).
Proof.
  assert (heap sample_world !! 0 = Some sample_observation) as Hd by reflexivity.
  split; [exact Hd|]. split; [exact sample_rewards_exact|].
  exact (all_rewards_is_linear "global" "per_arm" 0 sample_hidden_param
           sample_world sample_observation sample_global sample_per_arm
           2 3 2 1 Hd sample_observation_valid eq_refl sample_rewards_exact).
Defined.

Lemma rounding_observation_valid :
  valid_observation "global" "per_arm" rounding_observation
    rounding_global rounding_per_arm 1 2 1 1.
Proof. constructor; reflexivity. Defined.

(** The claim C1 as the specification states it, without a bound on the
    magnitudes, fails: with the global feature [2^24], the feature 1 of the
    first arm and the hidden parameter [1, 1], the dot product is
    [2^24 + 1], which float32 does not hold, and the reward is [2^24]; and
    with a hidden parameter that no tensor can hold there is no reward at
    all. *)
Lemma all_rewards_rounds :
  heap rounding_world !! 0 = Some rounding_observation ∧
  valid_observation "global" "per_arm" rounding_observation
    rounding_global rounding_per_arm 1 2 1 1 ∧
  length [1; 1]%Z = 1 + 1 ∧
  _all_rewards "global" "per_arm" 0 [1; 1]%Z rounding_world
    = (Ok (mkTensor [1; 2] [Num (2 ^ 24); Num (2 ^ 24)]), rounding_world) ∧
  dot (vec rounding_global [0] 1 ++ vec rounding_per_arm [0; 0] 1) [1; 1]%Z
    = (2 ^ 24 + 1)%Z ∧
  ¬ (∃ rewards,
       _all_rewards "global" "per_arm" 0 [1; 1]%Z rounding_world
         = (Ok rewards, rounding_world) ∧
       ∀ b i, b < 1 → i < 2 →
         tget rewards [b; i] =
           Some (Num (dot (vec rounding_global [b] 1 ++
                             vec rounding_per_arm [b; i] 1) [1; 1]%Z))) ∧
  length huge_hidden_param = 1 + 1 ∧
  _all_rewards "global" "per_arm" 0 huge_hidden_param rounding_world
    = (Err (ValueError "convert_to_tensor"), rounding_world).
Proof.
  split_and!; try reflexivity.
  - exact rounding_observation_valid.
  - intros (rewards & Hrun & Hent).
    assert (_all_rewards "global" "per_arm" 0 [1; 1]%Z rounding_world
            = (Ok (mkTensor [1; 2] [Num (2 ^ 24); Num (2 ^ 24)]),
               rounding_world)) as Hval by reflexivity.
    rewrite Hval in Hrun. injection Hrun as <-.
    specialize (Hent 0 0 ltac:(lia) ltac:(lia)).
    vm_compute in Hent. discriminate Hent.
Qed.

Lemma optimal_reward_is_max_witness :
  heap sample_world !! 0 = Some sample_observation ∧
  ∃ rewards best,
    _all_rewards "global" "per_arm" 0 sample_hidden_param sample_world
      = (Ok rewards, sample_world) ∧
    shape rewards = [2; 3] ∧
    optimal_reward "global" "per_arm" 0 sample_hidden_param sample_world
      = (Ok best, sample_world) ∧
    shape best = [2] ∧
    no_nan rewards ∧
    ∃ B K best',
      shape rewards = [B; K] ∧
      optimal_reward "global" "per_arm" 0 sample_hidden_param sample_world
        = (Ok best', sample_world) ∧
      shape best' = [B] ∧
      ∀ b, b < B →
        ∃ m, tget best' [b] = Some m ∧
          (∀ i v, i < K → tget rewards [b; i] = Some v → ext_le v m) ∧
          (K ≠ 0 → ∃ i, i < K ∧ tget rewards [b; i] = Some m) ∧
          (K = 0 → m = Lowest).
Proof.
  assert (heap sample_world !! 0 = Some sample_observation) as Hd by reflexivity.
  destruct (optimal_reward_is_max "global" "per_arm" 0 sample_hidden_param
              sample_world) as (Hmax & Hreturns & Hnan).
  destruct (Hreturns sample_observation sample_global sample_per_arm 2 3 2 1
              Hd sample_observation_valid eq_refl sample_hidden_param_castable)
    as (rewards & best & Hrun & Hs & Hbest & Hsb).
  pose proof (Hnan sample_observation sample_global sample_per_arm 2 3 2 1
                rewards sample_world Hd sample_observation_valid eq_refl
                sample_rewards_exact Hrun) as Hno.
  split; [exact Hd|].
  exists rewards, best. split_and!; try assumption.
  destruct (Hmax rewards sample_world Hrun) as (B & K & best' & H1 & H2 & H3 & H4).
  exists B, K, best'. split_and!; try assumption. exact (H4 Hno).
Defined.

Lemma tie_observation_valid :
  valid_observation "global" "per_arm" tie_observation tie_global tie_per_arm
    1 2 2 2.
Proof. constructor; reflexivity. Defined.

Lemma tie_rewards_exact :
  exact_rewards tie_global tie_per_arm tie_hidden_param 1 2 2 2.
Proof. exact_by_cases. Defined.

Lemma tie_hidden_param_castable : Forall in_int64 tie_hidden_param.
Proof. castable_by_cases. Defined.


Lemma oracle_batch_dimension_witness :
  heap sample_world !! 0 = Some sample_observation ∧
  (∃ best,
     optimal_reward "global" "per_arm" 0 sample_hidden_param sample_world
       = (Ok best, sample_world) ∧
     shape best = [2] ∧ length (values best) = 2) ∧
  (3 ≠ 0 →
   ∃ acts,
     optimal_action "global" "per_arm" 0 sample_hidden_param sample_world
       = (Ok acts, sample_world) ∧
     shape acts = [2] ∧ length (values acts) = 2).
Proof.
  assert (heap sample_world !! 0 = Some sample_observation) as Hd by reflexivity.
  split; [exact Hd|].
  exact (proj2 (proj2 (oracle_batch_dimension "global" "per_arm" 0
                         sample_hidden_param sample_world sample_observation
                         sample_global sample_per_arm 2 3 2 1 Hd
                         sample_observation_valid))
           eq_refl sample_hidden_param_castable).
Defined.


Lemma oracles_stateless_witness :
  heap sample_world !! 0 = heap other_world !! 0 ∧
  (optimal_reward "global" "per_arm" 0 sample_hidden_param sample_world).1
    = (optimal_reward "global" "per_arm" 0 sample_hidden_param other_world).1 ∧
  (optimal_action "global" "per_arm" 0 sample_hidden_param sample_world).1
    = (optimal_action "global" "per_arm" 0 sample_hidden_param other_world).1.
Proof.
  assert (heap sample_world !! 0 = heap other_world !! 0) as Hsame by reflexivity.
  split; [exact Hsame|].
  exact (proj1 (proj2 (oracles_stateless "global" "per_arm" 0 sample_hidden_param
                         sample_world other_world Hsame))).
Defined.

Lemma drop_arm_obs_transformation_witness :
  ∃ r,
    main "global" "per_arm" sample_bitgen quiet_framework dropping_flags
      sample_world = (Ok r, sample_world) ∧
    ∃ fn traj' w1 d',
      training_data_spec_transformation_fn r = Some fn ∧
      fn sample_trajectory sample_world = (Ok traj', w1) ∧
      heap w1 !! observation traj' = Some d' ∧
      d' !! "per_arm" = None ∧
      d' !! "global" = Some sample_global ∧
      reward traj' = reward sample_trajectory ∧
      heap w1 !! 0 = Some sample_observation.
Proof.
  eexists. split; [reflexivity|].
  destruct (proj2 (drop_arm_obs_transformation "global" "per_arm" sample_bitgen
                     quiet_framework dropping_flags sample_world _ sample_world
                     eq_refl) eq_refl)
    as (fn & Hfn & _ & Hrun).
  destruct (Hrun sample_trajectory sample_world sample_observation eq_refl)
    as (traj' & w1 & d' & Hcall & Hd' & Hgone & Hkept & _ & _ & _ & _ & Hrew & _
        & Hinput & _).
  { exists sample_per_arm. reflexivity. }
  exists fn, traj', w1, d'. split_and!; try assumption.
  rewrite Hkept; [reflexivity | discriminate].
Defined.

Lemma network_flag_selects_network_witness :
  parse_flags ∅ (mkCommandLine None (Some "dotproduct") None)
    = Ok (mkFlags None "dotproduct" false) ∧
  ∃ r,
    main "global" "per_arm" sample_bitgen quiet_framework dropping_flags
      sample_world = (Ok r, sample_world) ∧
    reward_network (agent r) =
      create_feed_forward_dot_product_network
        (observation_spec (environment r)) [4; 3; 6] [3; 4; 6].
Proof.
  split; [reflexivity|].
  eexists. split; [reflexivity|].
  apply (proj2 (proj2 (network_flag_selects_network "global" "per_arm"
                         sample_bitgen quiet_framework ∅))
           dropping_flags sample_world _ sample_world eq_refl).
  reflexivity.
Defined.

Lemma huge_hidden_param_not_castable : ¬ Forall in_int64 huge_hidden_param.
Proof.
  intros H. apply Forall_cons in H as [[_ H] _]. vm_compute in H.
  discriminate H.
Defined.

Lemma no_local_error_handling_witness :
  main "global" "per_arm" sample_bitgen failing_framework default_flags
    sample_world = (Err (FrameworkError 7), sample_world) ∧
  script "global" "per_arm" sample_bitgen failing_framework ∅
    (mkCommandLine None None None) sample_world
    = (Err (FrameworkError 7), sample_world) ∧
  optimal_reward "global" "per_arm" 0 HIDDEN_PARAM sample_world
    = (Err (InvalidArgumentError "MatMul"), sample_world) ∧
  _all_rewards "global" "per_arm" 5 HIDDEN_PARAM other_world
    = (Err (KeyError "global"), other_world) ∧
  _all_rewards "global" "per_arm" 5 huge_hidden_param other_world
    = (Err (ValueError "convert_to_tensor"), other_world).
Proof.
  destruct (no_local_error_handling "global" "per_arm" sample_bitgen
              failing_framework ∅)
    as (Hmain & _ & Hscript & _ & _ & Hcast & Hkeys & Hshape & _).
  assert (Forall in_int64 HIDDEN_PARAM) as Hh by castable_by_cases.
  assert (main "global" "per_arm" sample_bitgen failing_framework default_flags
            sample_world = (Err (FrameworkError 7), sample_world)) as Hfail.
  { apply (Hmain default_flags sample_world). left. }
  split_and!.
  - exact Hfail.
  - rewrite (Hscript (mkCommandLine None None None) default_flags sample_world
               eq_refl).
    exact Hfail.
  - apply (Hshape 0 HIDDEN_PARAM sample_world sample_observation
             sample_global sample_per_arm 2 3 2 1 eq_refl
             sample_observation_valid Hh).
    simpl. lia.
  - apply (Hkeys 5 HIDDEN_PARAM other_world ∅ eq_refl Hh). reflexivity.
  - apply (Hcast 5 huge_hidden_param other_world).
    exact huge_hidden_param_not_castable.
Defined.

(** The claim C8 as the specification states it fails for malformed flags:
    the exception of the flag definition does not leave the script,
    [app.run] ends the process with exit status 1. *)
Lemma malformed_flag_exits :
  parse_flags ∅ malformed_command_line
    = Err (IllegalFlagValueError "network") ∧
  script "global" "per_arm" sample_bitgen quiet_framework ∅
    malformed_command_line sample_world
    = (Err (SystemExit 1), sample_world) ∧
  SystemExit 1 ≠ IllegalFlagValueError "network".
Proof. split_and!; [reflexivity | reflexivity | discriminate]. Qed.

Lemma env_observation_valid :
  valid_observation "global" "per_arm" env_observation env_global env_per_arm
    1 2 4 5.
Proof. constructor; reflexivity. Defined.

Lemma env_observation_sampled : sampled_observation env_global env_per_arm.
Proof. split; repeat constructor; lia. Defined.

Lemma oracle_exact_for_environment_witness :
  ∃ r,
    main "global" "per_arm" sample_bitgen quiet_framework default_flags
      sample_world = (Ok r, sample_world) ∧
    ∃ reward_fn optimal_reward_fn optimal_action_fn,
      environment r =
        TFPyEnvironment
          (StationaryStochasticPerArmPyEnvironment
             (_global_context_sampling_fn sample_bitgen)
             (_arm_context_sampling_fn sample_bitgen)
             NUM_ACTIONS reward_fn BATCH_SIZE) ∧
      additional_metrics r =
        [RegretMetric optimal_reward_fn; SuboptimalArmsMetric optimal_action_fn] ∧
      optimal_reward_fn 2 sample_world
        = optimal_reward "global" "per_arm" 2 HIDDEN_PARAM sample_world ∧
      optimal_action_fn 2 sample_world
        = optimal_action "global" "per_arm" 2 HIDDEN_PARAM sample_world ∧
      ∃ rewards,
        _all_rewards "global" "per_arm" 2 HIDDEN_PARAM sample_world
          = (Ok rewards, sample_world) ∧
        ∀ b i, b < 1 → i < 2 →
          ∃ sample w1,
            reward_fn (vec env_global [b] 4 ++ vec env_per_arm [b; i] 5)
              sample_world = (Ok sample, w1) ∧
            tget rewards [b; i] = Some (normal_mean sample).
Proof.
  eexists. split; [reflexivity|].
  destruct (oracle_exact_for_environment "global" "per_arm" sample_bitgen
              quiet_framework default_flags sample_world _ sample_world eq_refl)
    as (reward_fn & orf & oaf & Henv & Hmetrics & Hexact).
  exists reward_fn, orf, oaf.
  destruct (Hexact 2 sample_world env_observation env_global env_per_arm
              1 2 eq_refl env_observation_valid env_observation_sampled)
    as (Hr & Ha & Hrewards).
  split_and!; assumption.
Defined.

(** ** The operators on small tensors *)

Example tf_cast_float32_example :
  tf_cast_float32 [1; 2 ^ 24 + 1; - (2 ^ 24 + 3); 2 ^ 63 - 1]%Z =
    Ok (mkTensor [4] [1; 2 ^ 24; - (2 ^ 24 + 4); 2 ^ 63]%Z) ∧
  tf_cast_float32 [2 ^ 63]%Z = Err (ValueError "convert_to_tensor") ∧
  tf_cast_float32 [- 2 ^ 63 - 1]%Z = Err (ValueError "convert_to_tensor").
Proof. split_and!; reflexivity. Qed.

Example float32_arithmetic_example :
  float_add float32_prec float32_emax (Num (2 ^ 24)) (Num 1) = Num (2 ^ 24) ∧
  float_add float32_prec float32_emax (Num (2 ^ 24)) (Num 3) = Num (2 ^ 24 + 4) ∧
  float_mul float32_prec float32_emax (Num (2 ^ 100)) (Num (2 ^ 28)) = Highest ∧
  float_mul float32_prec float32_emax (Num (2 ^ 100)) (Num (- 2 ^ 28)) = Lowest ∧
  float_add float32_prec float32_emax Highest Lowest = NaN ∧
  float_mul float32_prec float32_emax Highest (Num 0) = NaN.
Proof. split_and!; reflexivity. Qed.

Example tf_expand_dims_example :
  tf_expand_dims sample_global 1 = Ok (mkTensor [2; 1; 2] [1; 0; 3; 4]%Z).
Proof. reflexivity. Qed.

Example tf_tile_example :
  tf_tile (mkTensor [2; 1; 2] [1; 0; 3; 4]%Z) [1; 3; 1] =
    Ok (mkTensor [2; 3; 2] [1; 0; 1; 0; 1; 0; 3; 4; 3; 4; 3; 4]%Z) ∧
  tf_tile (mkTensor [1; 2] [5; 6]%Z) [2; 2] =
    Ok (mkTensor [2; 4] [5; 6; 5; 6; 5; 6; 5; 6]%Z) ∧
  tf_tile sample_global [1; 3; 1] = Err (InvalidArgumentError "Tile").
Proof. split_and!; reflexivity. Qed.

Example tf_concat_example :
  tf_concat (mkTensor [2; 3; 2] [1; 0; 1; 0; 1; 0; 3; 4; 3; 4; 3; 4]%Z)
    sample_per_arm =
    Ok (mkTensor [2; 3; 3]
          [1; 0; 1; 1; 0; 2; 1; 0; 3; 3; 4; 7; 3; 4; 8; 3; 4; 9]%Z) ∧
  tf_concat sample_global sample_per_arm = Err (InvalidArgumentError "ConcatV2").
Proof. split_and!; reflexivity. Qed.

Example tf_matvec_example :
  tf_matvec (mkTensor [2; 2; 2] [1; 2; 3; 4; 5; 6; 7; 8]%Z)
    (mkTensor [2] [10; 1]%Z)
    = Ok (mkTensor [2; 2] [Num 12; Num 34; Num 56; Num 78]) ∧
  tf_matvec (mkTensor [1; 1; 2] [2 ^ 24; 1]%Z) (mkTensor [2] [1; 1]%Z)
    = Ok (mkTensor [1; 1] [Num (2 ^ 24)]) ∧
  tf_matvec (mkTensor [2; 2; 2] [1; 2; 3; 4; 5; 6; 7; 8]%Z)
    (mkTensor [3] [10; 1; 0]%Z) = Err (InvalidArgumentError "MatMul").
Proof. split_and!; reflexivity. Qed.

Example tf_reduce_max_example :
  tf_reduce_max
    (mkTensor [2; 3] [Num 2; Num 3; Num 4; Num 17; Num 16; Num 17]) 1 =
    Ok (mkTensor [2] [Num 4; Num 17]) ∧
  tf_reduce_max (mkTensor [1; 3] [Num 2; Highest; Lowest]) 1 =
    Ok (mkTensor [1] [Highest]) ∧
  tf_reduce_max (mkTensor [3] [Num 1; Num 2; Num 3]) 1 =
    Err (InvalidArgumentError "Max").
Proof. split_and!; reflexivity. Qed.

Example tf_argmax_example :
  tf_argmax
    (mkTensor [2; 3] [Num 2; Num 3; Num 4; Num 17; Num 16; Num 17]) 1 =
    Ok (mkTensor [2] [2; 0]%Z) ∧
  tf_argmax (mkTensor [2; 0] []) 1 = Err (InvalidArgumentError "ArgMax").
Proof. split_and!; reflexivity. Qed.

Example int32_example :
  int32 6 = 6%Z ∧ int32 (2 ^ 31 - 1) = (2 ^ 31 - 1)%Z ∧ int32 (2 ^ 31) = (- 2 ^ 31)%Z.
Proof. split_and!; reflexivity. Qed.

(** [np.dot] works in float64, [tf.linalg.matvec] in float32: outside the
    range of the sampling functions the two can differ. *)
Example np_dot_example :
  np_dot [3; -10; 9; 0; 2; 2; 2; 2; 2]%Z HIDDEN_PARAM = Ok (Num 68) ∧
  np_dot [0; 2 ^ 24; 0; 0; 0; 0; 0; 1; 0]%Z HIDDEN_PARAM = Ok (Num 16777223) ∧
  dot_float float32_prec float32_emax [0; 2 ^ 24; 0; 0; 0; 0; 0; 1; 0]%Z
    HIDDEN_PARAM = Num 16777224 ∧
  np_dot [1; 2]%Z HIDDEN_PARAM = Err (ValueError "dot").
Proof. split_and!; reflexivity. Qed.

(** ** The script on the scenarios of the specification *)

(** Hidden parameter [1,1,2,1] on the observation of the tie scenario: the
    rewards are 3 and 2, the first arm is optimal. *)
Example scenario_without_tie :
  _all_rewards "global" "per_arm" 1 [1; 1; 2; 1]%Z sample_world
    = (Ok (mkTensor [1; 2] [Num 3; Num 2]), sample_world) ∧
  optimal_action "global" "per_arm" 1 [1; 1; 2; 1]%Z sample_world
    = (Ok (mkTensor [1] [0%Z]), sample_world) ∧
  optimal_reward "global" "per_arm" 1 [1; 1; 2; 1]%Z sample_world
    = (Ok (mkTensor [1] [Num 3]), sample_world).
Proof. split_and!; reflexivity. Qed.

(** Two batch elements and three arms. *)
Example sample_oracles :
  _all_rewards "global" "per_arm" 0 sample_hidden_param sample_world
    = (Ok (mkTensor [2; 3] [Num 2; Num 3; Num 4; Num 14; Num 15; Num 16]),
       sample_world) ∧
  optimal_action "global" "per_arm" 0 sample_hidden_param sample_world
    = (Ok (mkTensor [2] [2; 2]%Z), sample_world) ∧
  optimal_reward "global" "per_arm" 0 sample_hidden_param sample_world
    = (Ok (mkTensor [2] [Num 4; Num 16]), sample_world).
Proof. split_and!; reflexivity. Qed.

(** The observation of the environment with [HIDDEN_PARAM]. *)
Example env_oracles :
  _all_rewards "global" "per_arm" 2 HIDDEN_PARAM sample_world
    = (Ok (mkTensor [1; 2] [Num 9; Num 68]), sample_world) ∧
  optimal_action "global" "per_arm" 2 HIDDEN_PARAM sample_world
    = (Ok (mkTensor [1] [1%Z]), sample_world).
Proof. split_and!; reflexivity. Qed.

(** Rewards that float32 rounds to the same number: the exact rewards
    [2^24 + 1] and [2^24] differ, the computed ones tie and the first arm
    is reported. *)
Example rounded_rewards_tie :
  _all_rewards "global" "per_arm" 0 [1; 1]%Z rounding_world
    = (Ok (mkTensor [1; 2] [Num (2 ^ 24); Num (2 ^ 24)]), rounding_world) ∧
  optimal_action "global" "per_arm" 0 [1; 1]%Z rounding_world
    = (Ok (mkTensor [1] [0%Z]), rounding_world) ∧
  optimal_reward "global" "per_arm" 0 [1; 1]%Z rounding_world
    = (Ok (mkTensor [1] [Num (2 ^ 24)]), rounding_world).
Proof. split_and!; reflexivity. Qed.

(** Equal maxima: the first one is reported. *)
Example argmax_list_ties :
  argmax_list [1; 5; 5; 2; 5]%Z = 1 ∧ argmax_list [4; 4]%Z = 0 ∧
  argmax_list [-3; -7; -3]%Z = 0 ∧
  argmax_float [Num 1; Num 5; Num 5; Num 2; Num 5] = 1.
Proof. split_and!; reflexivity. Qed.

(** Without any arm there is no optimal action, and the optimal reward is
    the identity of the maximum. *)
Example oracles_without_arm :
  optimal_action "global" "per_arm" 3 [1; 1; 1]%Z sample_world
    = (Err (InvalidArgumentError "ArgMax"), sample_world) ∧
  optimal_reward "global" "per_arm" 3 [1; 1; 1]%Z sample_world
    = (Ok (mkTensor [2] [Lowest; Lowest]), sample_world).
Proof. split_and!; reflexivity. Qed.

(** What [main] hands to the trainer with the default flags. *)
Example main_default_flags :
  ∃ r,
    main "global" "per_arm" sample_bitgen quiet_framework default_flags
      sample_world = (Ok r, sample_world) ∧
    reward_network (agent r) =
      create_feed_forward_common_tower_network
        (observation_spec (environment r)) [4; 3] [3; 4] [4; 2] ∧
    training_data_spec_transformation_fn r = None ∧
    training_loops r = 2000 ∧ steps_per_loop r = 2 ∧
    epsilon (agent r) = mkFloat 1 (-2) ∧
    optimizer (agent r) = AdamOptimizer (mkFloat 5 (-2)).
Proof. eexists. split_and!; reflexivity. Qed.

(** The script on a command line without flags, and on one with a network
    that is not listed. *)
Example script_example :
  (∃ r, script "global" "per_arm" sample_bitgen quiet_framework ∅
          (mkCommandLine None None None) sample_world = (Ok r, sample_world)) ∧
  script "global" "per_arm" sample_bitgen quiet_framework ∅
    malformed_command_line sample_world = (Err (SystemExit 1), sample_world).
Proof. split; [eexists|]; reflexivity. Qed.

(** ** The network builder that is not selected *)

(** X13. [main] calls the builder of the selected network only: with
    [commontower], whatever the builder of the dot product network would do
    (raise, change the state) is without effect on [main], and the other way
    round with [dotproduct]. *)
Theorem unselected_network_never_built
    (GLOBAL_FEATURE_KEY PER_ARM_FEATURE_KEY : string) (bitgen : Generator)
    (framework1 framework2 : LibCall → World → option exn * World)
    (FLAGS : Flags) (w : World) :
  (FLAGS_network FLAGS = "commontower" →
   (∀ c w0, c ≠ call_create_feed_forward_dot_product_network →
            framework1 c w0 = framework2 c w0) →
   main GLOBAL_FEATURE_KEY PER_ARM_FEATURE_KEY bitgen framework1 FLAGS w
     = main GLOBAL_FEATURE_KEY PER_ARM_FEATURE_KEY bitgen framework2 FLAGS w) ∧
  (FLAGS_network FLAGS = "dotproduct" →
   (∀ c w0, c ≠ call_create_feed_forward_common_tower_network →
            framework1 c w0 = framework2 c w0) →
   main GLOBAL_FEATURE_KEY PER_ARM_FEATURE_KEY bitgen framework1 FLAGS w
     = main GLOBAL_FEATURE_KEY PER_ARM_FEATURE_KEY bitgen framework2 FLAGS w).
Proof.
  split; intros Hn Hagree;
    unfold main, mbind, Py_bind, lib, mret, Py_ret; rewrite Hn; simpl;
    repeat (match goal with
            | |- context [framework1 ?c ?w0] =>
                rewrite (Hagree c w0) by done;
                destruct (framework2 c w0) as [[?|] ?]; simpl; try done
            end).
Qed.

(** ** The further properties at sample inputs *)

Lemma environment_rewards_range_witness :
  heap sample_world !! 2 = Some env_observation ∧
  ∃ rewards best,
    _all_rewards "global" "per_arm" 2 HIDDEN_PARAM sample_world
      = (Ok rewards, sample_world) ∧
    optimal_reward "global" "per_arm" 2 HIDDEN_PARAM sample_world
      = (Ok best, sample_world) ∧
    (∀ b i, b < 1 → i < 2 →
       ∃ v, tget rewards [b; i] = Some (Num v) ∧ (-120 ≤ v ≤ 114)%Z) ∧
    (2 ≠ 0 → ∀ b, b < 1 →
       ∃ m, tget best [b] = Some (Num m) ∧ (-120 ≤ m ≤ 114)%Z).
Proof.
  assert (heap sample_world !! 2 = Some env_observation) as Hd by reflexivity.
  split; [exact Hd|].
  exact (environment_rewards_range "global" "per_arm" 2 sample_world
           env_observation env_global env_per_arm 1 2 Hd
           env_observation_valid env_observation_sampled).
Defined.

Lemma all_rewards_returns_iff_witness :
  (∃ rewards,
     _all_rewards "global" "per_arm" 0 sample_hidden_param sample_world
       = (Ok rewards, sample_world)) ∧
  ¬ (∃ e,
       _all_rewards "global" "per_arm" 0 sample_hidden_param sample_world
         = (Err e, sample_world)).
Proof.
  destruct (all_rewards_returns_iff "global" "per_arm" 0 sample_hidden_param
              sample_world sample_observation sample_global sample_per_arm
              eq_refl eq_refl eq_refl eq_refl eq_refl) as [Hok Herr].
  assert (Forall in_int64 sample_hidden_param ∧
          ∃ B K Dg Da,
            valid_observation "global" "per_arm" sample_observation
              sample_global sample_per_arm B K Dg Da ∧
            length sample_hidden_param = Dg + Da) as Hvalid.
  { split; [exact sample_hidden_param_castable|].
    exists 2, 3, 2, 1. split; [exact sample_observation_valid | reflexivity]. }
  split.
  - apply Hok. exact Hvalid.
  - intros He. apply Herr in He. exact (He Hvalid).
Defined.

Lemma batch_mismatch_raises_witness :
  optimal_reward "global" "per_arm" 0 sample_hidden_param more_world
    = (Err (InvalidArgumentError "ConcatV2"), more_world) ∧
  optimal_action "global" "per_arm" 0 sample_hidden_param more_world
    = (Err (InvalidArgumentError "ConcatV2"), more_world).
Proof.
  apply (batch_mismatch_raises "global" "per_arm" 0 sample_hidden_param
           more_world mismatched_observation sample_global
           (mkTensor [3; 1; 1] [1; 2; 3]%Z) 2 3 1 2 1
           eq_refl eq_refl eq_refl eq_refl eq_refl).
  - lia.
  - exact sample_hidden_param_castable.
Defined.

Lemma oracles_read_two_keys_witness :
  (optimal_reward "global" "per_arm" 0 sample_hidden_param sample_world).1
    = (optimal_reward "global" "per_arm" 1 sample_hidden_param more_world).1 ∧
  (optimal_action "global" "per_arm" 0 sample_hidden_param sample_world).1
    = (optimal_action "global" "per_arm" 1 sample_hidden_param more_world).1.
Proof.
  destruct (oracles_read_two_keys "global" "per_arm" 0 1 sample_hidden_param
              sample_world more_world sample_observation annotated_observation
              eq_refl eq_refl eq_refl eq_refl) as (Hr & Ha & _).
  split; assumption.
Defined.

Lemma second_rewards_exact :
  exact_rewards sample_global sample_per_arm [2; 0; -1]%Z 2 3 2 1.
Proof. exact_by_cases. Defined.

Lemma sum_rewards_exact :
  exact_rewards sample_global sample_per_arm
    (add_param [1; 1; 1] [2; 0; -1])%Z 2 3 2 1.
Proof. exact_by_cases. Defined.

Lemma scaled_rewards_exact :
  exact_rewards sample_global sample_per_arm (scale_param 3 [1; 1; 1])%Z
    2 3 2 1.
Proof. exact_by_cases. Defined.

Lemma all_rewards_linear_in_param_witness :
  ∃ r1 r2 rsum rscaled,
    _all_rewards "global" "per_arm" 0 [1; 1; 1]%Z sample_world
      = (Ok r1, sample_world) ∧
    _all_rewards "global" "per_arm" 0 [2; 0; -1]%Z sample_world
      = (Ok r2, sample_world) ∧
    _all_rewards "global" "per_arm" 0 (add_param [1; 1; 1] [2; 0; -1])%Z
      sample_world = (Ok rsum, sample_world) ∧
    _all_rewards "global" "per_arm" 0 (scale_param 3 [1; 1; 1])%Z sample_world
      = (Ok rscaled, sample_world) ∧
    ∀ b i, b < 2 → i < 3 →
      ∃ v1 v2,
        tget r1 [b; i] = Some (Num v1) ∧ tget r2 [b; i] = Some (Num v2) ∧
        tget rsum [b; i] = Some (Num (v1 + v2)) ∧
        tget rscaled [b; i] = Some (Num (3 * v1)).
Proof.
  exact (all_rewards_linear_in_param "global" "per_arm" 0 [1; 1; 1]%Z
           [2; 0; -1]%Z 3%Z sample_world sample_observation sample_global
           sample_per_arm 2 3 2 1 eq_refl sample_observation_valid
           eq_refl eq_refl sample_rewards_exact second_rewards_exact
           sum_rewards_exact scaled_rewards_exact).
Defined.

Lemma optimal_action_zero_iff_witness :
  ∃ rewards acts,
    _all_rewards "global" "per_arm" 1 tie_hidden_param sample_world
      = (Ok rewards, sample_world) ∧
    optimal_action "global" "per_arm" 1 tie_hidden_param sample_world
      = (Ok acts, sample_world) ∧
    ordinary_rewards rewards ∧
    ∀ b, b < 1 →
      ∃ r0, tget rewards [b; 0] = Some r0 ∧
        (tget acts [b] = Some 0%Z ↔
         ∀ i v, i < 2 → tget rewards [b; i] = Some v → ext_le v r0).
Proof.
  destruct (optimal_action_zero_iff "global" "per_arm" 1 tie_hidden_param
              sample_world tie_observation tie_global tie_per_arm 1 2 2 2
              eq_refl tie_observation_valid eq_refl tie_hidden_param_castable)
    as (rewards & acts & Hrun & Hact & Hiff & Hord).
  - lia.
  - simpl. lia.
  - exists rewards, acts. split_and!; try assumption.
    + exact (Hord tie_rewards_exact).
    + exact (Hiff (Hord tie_rewards_exact)).
Defined.

Lemma armless_observation_valid :
  valid_observation "global" "per_arm" armless_observation sample_global
    (mkTensor [2; 0; 1] []) 2 0 2 1.
Proof. constructor; reflexivity. Defined.

Lemma oracles_on_no_arm_witness :
  optimal_action "global" "per_arm" 3 sample_hidden_param sample_world
    = (Err (InvalidArgumentError "ArgMax"), sample_world) ∧
  ∃ best,
    optimal_reward "global" "per_arm" 3 sample_hidden_param sample_world
      = (Ok best, sample_world) ∧
    shape best = [2] ∧
    ∀ b, b < 2 → tget best [b] = Some Lowest.
Proof.
  exact (proj2 (oracles_on_no_arm "global" "per_arm" 3 sample_hidden_param
                  sample_world armless_observation sample_global
                  (mkTensor [2; 0; 1] []) 2 2 1 eq_refl
                  armless_observation_valid eq_refl
                  sample_hidden_param_castable)).
Defined.

Lemma drop_arm_feature_fn_not_twice_witness :
  (∃ w1,
     drop_arm_feature_fn "per_arm" bare_trajectory other_world
       = (Err (KeyError "per_arm"), w1) ∧
     rng w1 = rng other_world ∧
     ∀ l dl, heap other_world !! l = Some dl → heap w1 !! l = Some dl) ∧
  ∃ traj' w1 w2,
    drop_arm_feature_fn "per_arm" sample_trajectory sample_world = (Ok traj', w1) ∧
    drop_arm_feature_fn "per_arm" traj' w1 = (Err (KeyError "per_arm"), w2).
Proof.
  destruct (drop_arm_feature_fn_not_twice "per_arm") as [Hmissing Htwice].
  split.
  - exact (Hmissing bare_trajectory other_world ∅ eq_refl eq_refl).
  - assert (∃ traj' w1,
              drop_arm_feature_fn "per_arm" sample_trajectory sample_world
                = (Ok traj', w1)) as (traj' & w1 & Hfirst)
      by (eexists _, _; reflexivity).
    destruct (Htwice sample_trajectory sample_world traj' w1 Hfirst)
      as (w2 & Hrun & _).
    exists traj', w1, w2. split; [exact Hfirst | exact Hrun].
Defined.

Lemma oracles_after_drop_witness :
  ∃ traj' w1,
    drop_arm_feature_fn "per_arm" sample_trajectory sample_world = (Ok traj', w1) ∧
    optimal_reward "global" "per_arm" (observation traj') sample_hidden_param w1
      = (Err (KeyError "per_arm"), w1) ∧
    (optimal_reward "global" "per_arm" 0 sample_hidden_param w1).1
      = (optimal_reward "global" "per_arm" 0 sample_hidden_param sample_world).1.
Proof.
  assert (∃ traj' w1,
            drop_arm_feature_fn "per_arm" sample_trajectory sample_world
              = (Ok traj', w1)) as (traj' & w1 & Hfirst)
    by (eexists _, _; reflexivity).
  exists traj', w1. split; [exact Hfirst|].
  destruct (oracles_after_drop "global" "per_arm" sample_trajectory sample_world
              traj' w1 sample_hidden_param sample_observation)
    as (Hr & _ & Hbefore & _).
  - discriminate.
  - reflexivity.
  - exists sample_global. reflexivity.
  - exact sample_hidden_param_castable.
  - exact Hfirst.
  - split; [exact Hr | exact Hbefore].
Defined.

Lemma agent_built_for_trained_environment_witness :
  ∃ r,
    main "global" "per_arm" sample_bitgen quiet_framework dropping_flags
      sample_world = (Ok r, sample_world) ∧
    agent_time_step_spec (agent r) = time_step_spec (environment r) ∧
    agent_action_spec (agent r) = action_spec (environment r) ∧
    network_obs_spec (reward_network (agent r))
      = observation_spec (environment r) ∧
    accepts_per_arm_features (agent r) = true ∧
    agent_training_data_spec_transformation_fn (agent r)
      = training_data_spec_transformation_fn r.
Proof.
  eexists. split; [reflexivity|].
  destruct (agent_built_for_trained_environment "global" "per_arm"
              sample_bitgen quiet_framework dropping_flags sample_world _
              sample_world eq_refl)
    as (H1 & H2 & H3 & H4 & H5 & _).
  split_and!; assumption.
Defined.

Lemma unselected_network_never_built_witness :
  main "global" "per_arm" sample_bitgen quiet_framework default_flags
    sample_world
  = main "global" "per_arm" sample_bitgen no_dot_product_framework
      default_flags sample_world.
Proof.
  apply (proj1 (unselected_network_never_built "global" "per_arm" sample_bitgen
                  quiet_framework no_dot_product_framework default_flags
                  sample_world)).
  - reflexivity.
  - intros c w0 Hc. destruct c; try reflexivity. exfalso. apply Hc. reflexivity.
Defined.

Lemma parsed_flags_reach_trainer_witness :
  parse_flags {["TEST_UNDECLARED_OUTPUTS_DIR" := "/tmp/undeclared"]}
    (mkCommandLine None (Some "dotproduct") (Some true))
    = Ok (mkFlags (Some "/tmp/undeclared") "dotproduct" true) ∧
  ∃ r w',
    main "global" "per_arm" sample_bitgen quiet_framework
      (mkFlags (Some "/tmp/undeclared") "dotproduct" true) sample_world
      = (Ok r, w') ∧
    root_dir r = Some "/tmp/undeclared".
Proof.
  split; [reflexivity|].
  exact (parsed_flags_reach_trainer "global" "per_arm" sample_bitgen
           quiet_framework {["TEST_UNDECLARED_OUTPUTS_DIR" := "/tmp/undeclared"]}
           (mkCommandLine None (Some "dotproduct") (Some true))
           (mkFlags (Some "/tmp/undeclared") "dotproduct" true) sample_world
           eq_refl (λ c w0, eq_refl)).
Defined.

Lemma annotated_observation_valid :
  valid_observation "global" "per_arm" annotated_observation
    sample_global sample_per_arm 2 3 2 1.
Proof. constructor; reflexivity. Defined.

Lemma oracles_per_batch_element_witness :
  (∃ best1 best2,
     optimal_reward "global" "per_arm" 0 sample_hidden_param sample_world
       = (Ok best1, sample_world) ∧
     optimal_reward "global" "per_arm" 1 sample_hidden_param more_world
       = (Ok best2, more_world) ∧
     tget best1 [1] = tget best2 [1]) ∧
  (3 ≠ 0 →
   ∃ acts1 acts2,
     optimal_action "global" "per_arm" 0 sample_hidden_param sample_world
       = (Ok acts1, sample_world) ∧
     optimal_action "global" "per_arm" 1 sample_hidden_param more_world
       = (Ok acts2, more_world) ∧
     tget acts1 [1] = tget acts2 [1]).
Proof.
  apply (oracles_per_batch_element "global" "per_arm" 0 1 sample_hidden_param
           sample_world more_world sample_observation annotated_observation
           sample_global sample_global sample_per_arm sample_per_arm
           2 2 3 2 1 1 1 eq_refl eq_refl sample_observation_valid
           annotated_observation_valid eq_refl sample_rewards_exact
           sample_rewards_exact).
  - lia.
  - lia.
  - reflexivity.
  - intros i _. reflexivity.
Defined.

Lemma shifted_observation_valid :
  valid_observation "global" "per_arm" shifted_observation
    (mkTensor [2; 2] [5; 5; 0; -1]%Z) sample_per_arm 2 3 2 1.
Proof. constructor; reflexivity. Defined.

Lemma shifted_rewards_exact :
  exact_rewards (mkTensor [2; 2] [5; 5; 0; -1]%Z) sample_per_arm
    sample_hidden_param 2 3 2 1.
Proof. exact_by_cases. Defined.

Lemma optimal_action_ignores_global_witness :
  ∃ acts1 acts2,
    optimal_action "global" "per_arm" 0 sample_hidden_param sample_world
      = (Ok acts1, sample_world) ∧
    optimal_action "global" "per_arm" 0 sample_hidden_param shifted_world
      = (Ok acts2, shifted_world) ∧
    ∀ b, b < 2 → tget acts1 [b] = tget acts2 [b].
Proof.
  apply (optimal_action_ignores_global "global" "per_arm" 0 0
           sample_hidden_param sample_world shifted_world sample_observation
           shifted_observation sample_global (mkTensor [2; 2] [5; 5; 0; -1]%Z)
           sample_per_arm 2 3 2 1 eq_refl eq_refl sample_observation_valid
           shifted_observation_valid eq_refl sample_rewards_exact
           shifted_rewards_exact).
  lia.
Defined.

Lemma hidden_param_checked_first_witness :
  ¬ Forall in_int64 huge_hidden_param ∧
  heap other_world !! 5 = Some ∅ ∧
  _all_rewards "global" "per_arm" 5 huge_hidden_param other_world
    = (Err (ValueError "convert_to_tensor"), other_world) ∧
  optimal_reward "global" "per_arm" 5 huge_hidden_param other_world
    = (Err (ValueError "convert_to_tensor"), other_world) ∧
  optimal_action "global" "per_arm" 5 huge_hidden_param other_world
    = (Err (ValueError "convert_to_tensor"), other_world).
Proof.
  split; [exact huge_hidden_param_not_castable|].
  split; [reflexivity|].
  exact (hidden_param_checked_first "global" "per_arm" 5 huge_hidden_param
           other_world huge_hidden_param_not_castable).
Defined.
